(** * Callback: a dispatcher of byte payloads to a dynamic set of endpoints

    A shallow embedding of the Go package [callback] (options.go, worker.go,
    callback.go, round_robin.go, data.go) and the properties of its
    specification that can be settled on it.

    Conventions of the embedding.
    - A [time.Time] is an instant counted in nanoseconds from the zero
      [time.Time{}]; a [time.Duration] is a count of nanoseconds.  The
      methods of package [time] are taken as exact integer arithmetic; the
      arithmetic the package does on a [time.Duration] itself, the negation
      in [Inc], wraps as an [int64] does.
    - [time.Now()] and the transport are the environment: a clock reading is
      an argument of the function that reads it.
    - A pointer [*Worker] is a worker value carrying the address it was
      allocated at; the dispatcher's slice [[]*Worker] is a list of them.
    - A Go panic is a result of its own ([Panic]): it is never a value.
    - A buffered channel is the list of what it holds, oldest first.  A send
      on a full channel suspends the sender until the receiver takes an item;
      the embedding records the state after the send has completed. *)

From Stdlib Require Import ZArith String Ascii Strings.Byte Bool Lia.
From stdpp Require Import base list strings gmap.

Local Open Scope string_scope.
Local Open Scope list_scope.
Local Open Scope Z_scope.

(** ** Time *)

Abbreviation Time := Z (only parsing).
Abbreviation Duration := Z (only parsing).

(** [time.Second], in nanoseconds. *)
Definition Second : Duration := 1000000000.

(** [time.Time{}]. *)
Definition zeroTime : Time := 0.

(** [t.After(u)], [t.Before(u)] and [t.Add(d)]. *)
Definition After (t u : Time) : bool := u <? t.
Definition Before (t u : Time) : bool := t <? u.
Definition Add (t : Time) (d : Duration) : Time := t + d.

(** A [time.Duration] is an [int64]: the bounds, and the value an [int64]
    holds after an operation whose exact result is [z]. *)
Definition maxInt64 : Z := 2 ^ 63 - 1.
Definition minInt64 : Z := - 2 ^ 63.
Definition wrap64 (z : Z) : Z := (z + 2 ^ 63) mod 2 ^ 64 - 2 ^ 63.

Definition bytes : Type := list Byte.byte.

(** ** Results of Go code that may panic *)

Inductive go (A : Type) : Type :=
| Return (a : A)
| Panic (msg : string).
Arguments Return {A} a.
Arguments Panic {A} msg.

Definition go_bind {A B : Type} (m : go A) (k : A -> go B) : go B :=
  match m with
  | Return a => k a
  | Panic msg => Panic msg
  end.

Notation "'do' x <~ m ; k" := (go_bind m (fun x => k))
  (at level 10, x name, m at level 100, k at level 200).

(** ** options.go *)

(** [type DeliveryMode string], [type Transport string], [type RetryMode string]
    and their package-level values. *)
Definition RoundRobin : string := "round_robin".
Definition Broadcast : string := "broadcast".
Definition REST : string := "REST".
Definition QUIC : string := "QUIC".
Definition Repeat : string := "repeat".
Definition Next : string := "next".

Record Options : Type := mkOptions {
  Transport : string;
  DeliveryMode : string;
  RetryMode : string;
  EndPoints : list string;
  RetryLimit : Z;
  RetryTimeout : Duration;
  RetryWindow : Duration
}.

Definition setTransport (v : string) (o : Options) : Options :=
  mkOptions v (DeliveryMode o) (RetryMode o) (EndPoints o)
            (RetryLimit o) (RetryTimeout o) (RetryWindow o).
Definition setDeliveryMode (v : string) (o : Options) : Options :=
  mkOptions (Transport o) v (RetryMode o) (EndPoints o)
            (RetryLimit o) (RetryTimeout o) (RetryWindow o).
Definition setRetryMode (v : string) (o : Options) : Options :=
  mkOptions (Transport o) (DeliveryMode o) v (EndPoints o)
            (RetryLimit o) (RetryTimeout o) (RetryWindow o).
Definition setRetryLimit (v : Z) (o : Options) : Options :=
  mkOptions (Transport o) (DeliveryMode o) (RetryMode o) (EndPoints o)
            v (RetryTimeout o) (RetryWindow o).
Definition setRetryTimeout (v : Duration) (o : Options) : Options :=
  mkOptions (Transport o) (DeliveryMode o) (RetryMode o) (EndPoints o)
            (RetryLimit o) v (RetryWindow o).
Definition setRetryWindow (v : Duration) (o : Options) : Options :=
  mkOptions (Transport o) (DeliveryMode o) (RetryMode o) (EndPoints o)
            (RetryLimit o) (RetryTimeout o) v.

(** [defaultOptions]: the six tests of the source, in its order; the source
    updates [*opt] in place and returns the same pointer. *)
Definition defaultOptions (opt : Options) : Options :=
  let opt := if String.eqb (Transport opt) "" then setTransport REST opt else opt in
  let opt := if String.eqb (DeliveryMode opt) "" then setDeliveryMode RoundRobin opt else opt in
  let opt := if String.eqb (RetryMode opt) "" then setRetryMode Next opt else opt in
  let opt := if RetryLimit opt =? 0 then setRetryLimit 5 opt else opt in
  let opt := if RetryTimeout opt =? 0 then setRetryTimeout (Second * 5) opt else opt in
  let opt := if RetryWindow opt =? 0 then setRetryWindow (Second * 3) opt else opt in
  opt.

(** ** data.go *)

Module Error.
Record t : Type := mk { Code : Z; Message : string; Critical : bool }.
End Error.

Module Response.
Record t : Type := mk { Data : bytes }.
End Response.

(** The envelope [Data].  The two pointer fields are [None] for [nil]. *)
Module Data.
Record t : Type := mk {
  Point : string;
  Success : bool;
  Response : option Response.t;
  Error : option Error.t
}.
End Data.

(** What an [interface{}] argument of [sendReturn] can hold: a [*Response]
    (the only implementation of [ResponseInterface]), an [*Error] (the only
    implementation of [ErrorInterface]), each possibly a nil pointer, or
    anything else, the nil interface included. *)
Inductive iface : Type :=
| IResponse (p : option Response.t)
| IError (p : option Error.t)
| IOther.

(** ** worker.go *)

(** A channel of [struct{}] used as a signal: the nil channel (the zero value
    of the field), a channel made and still open, or a closed one. *)
Inductive signal : Type := ChanNil | ChanOpen | ChanClosed.

(** [Worker].  [addr] is the address of the object.  The fields [callback],
    [returnChannel] and [mu] are the dispatcher itself, its shared channel and
    a lock: the functions below take the dispatcher as an argument. *)
Record Worker : Type := mkWorker {
  addr : nat;
  point : string;
  messageQueue : list bytes;
  errorTimestamps : list Time;
  blockedUntil : Time;
  stop : signal
}.

Definition setQueue (q : list bytes) (w : Worker) : Worker :=
  mkWorker (addr w) (point w) q (errorTimestamps w) (blockedUntil w) (stop w).
Definition setErrorTimestamps (l : list Time) (w : Worker) : Worker :=
  mkWorker (addr w) (point w) (messageQueue w) l (blockedUntil w) (stop w).
Definition setBlockedUntil (t : Time) (w : Worker) : Worker :=
  mkWorker (addr w) (point w) (messageQueue w) (errorTimestamps w) t (stop w).
Definition setStop (s : signal) (w : Worker) : Worker :=
  mkWorker (addr w) (point w) (messageQueue w) (errorTimestamps w) (blockedUntil w) s.

(** [Callback].  [roundRobinIndex] is the value of the [atomic.Int32];
    [returnChannel] is what the shared channel holds; [nextAddr] is the
    allocator: the address the next [&Worker{...}] gets.  The user's function
    [callback] and the lock [mu] play no part in what follows. *)
Record Callback : Type := mkCallback {
  transport : string;
  deliveryMode : string;
  endPoints : list Worker;
  retryLimit : Z;
  retryTimeout : Duration;
  retryWindow : Duration;
  roundRobinIndex : Z;
  returnChannel : list Data.t;
  nextAddr : nat
}.

Definition setEndPoints (l : list Worker) (c : Callback) : Callback :=
  mkCallback (transport c) (deliveryMode c) l (retryLimit c) (retryTimeout c)
             (retryWindow c) (roundRobinIndex c) (returnChannel c) (nextAddr c).
Definition setRoundRobinIndex (v : Z) (c : Callback) : Callback :=
  mkCallback (transport c) (deliveryMode c) (endPoints c) (retryLimit c) (retryTimeout c)
             (retryWindow c) v (returnChannel c) (nextAddr c).
Definition setNextAddr (n : nat) (c : Callback) : Callback :=
  mkCallback (transport c) (deliveryMode c) (endPoints c) (retryLimit c) (retryTimeout c)
             (retryWindow c) (roundRobinIndex c) (returnChannel c) n.

(** [sendReturn]: the type switch of the source. *)
Definition sendReturn (w : Worker) (result : iface) : Data.t :=
  match result with
  | IResponse p => Data.mk (point w) true p None
  | IError p => Data.mk (point w) false None p
  | IOther => Data.mk (point w) false None
                      (Some (Error.mk 0 "Unknown result type" false))
  end.

(** [Inc], at the clock reading [now].  [-w.callback.retryWindow] is an
    [int64] negation: it wraps at the least [int64].  The loop of the source
    filters [errorTimestamps] in place, keeping the order. *)
Definition Inc (c : Callback) (now : Time) (w : Worker) : Worker * bool :=
  let windowStart := Add now (wrap64 (- retryWindow c)) in
  let filteredErrors :=
    List.filter (fun timestamp => After timestamp windowStart) (errorTimestamps w) in
  let w := setErrorTimestamps (filteredErrors ++ [now]) w in
  if Z.of_nat (length (errorTimestamps w)) >? retryLimit c then
    let w := if After now (blockedUntil w)
             then setBlockedUntil (Add now (retryTimeout c)) w else w in
    (w, true)
  else (w, Before now (blockedUntil w)).

(** [Reset]. *)
Definition Reset (w : Worker) : Worker :=
  setBlockedUntil zeroTime (setErrorTimestamps [] w).

(** [Close]: [close(w.stop)].  Go panics when the channel is nil or already
    closed. *)
Definition Close (w : Worker) : go Worker :=
  match stop w with
  | ChanOpen => Return (setStop ChanClosed w)
  | ChanNil => Panic "close of nil channel"
  | ChanClosed => Panic "close of closed channel"
  end.

(** The largest capacity [make([]time.Time, 0, cap)] accepts: the runtime
    panics when the bytes asked for, 24 for each [time.Time], exceed its
    [maxAlloc], [2^48] on the 64-bit platforms. *)
Definition maxSliceCap : Z := 2 ^ 48 / 24.

(** [NewWorker].  [make([]time.Time, 0, c.retryLimit)] panics on a negative
    capacity and on one above [maxSliceCap].  The composite literal leaves
    [blockedUntil] and [stop] at their zero values.  [go worker.handler()]
    starts the worker's loop. *)
Definition NewWorker (c : Callback) (pt : string) : go (Worker * Callback) :=
  if (retryLimit c <? 0) || (maxSliceCap <? retryLimit c)
  then Panic "makeslice: cap out of range"
  else Return (mkWorker (nextAddr c) pt [] [] zeroTime ChanNil,
               setNextAddr (S (nextAddr c)) c).

(** *** The worker's loop

    The environment of a loop: what [transport.Post] does at the loop's [k]-th
    iteration (it answers, fails, or panics with a value printed as [r]), the
    reading of [time.Now()] there, and which case [select] takes there when
    both are ready. *)

Inductive Outcome : Type :=
| Ok (body : bytes)
| Fail (err : string)
| Crash (r : string).

(** What one [select] of the loop does. *)
Inductive Selected : Type :=
| SelMsg (data : bytes) (w : Worker)
| SelStop
| SelBlock.

(** Where a loop is when it is observed: suspended in [select] with nothing
    ready, returned on the stop signal, or still running. *)
Inductive Status : Type := Waiting | Stopped | Running.

(** A worker with the channel it reports to, the number of iterations its
    loops have made, and the number of [go w.handler()] statements run for
    it. *)
Record Loop : Type := mkLoop {
  self : Worker;
  sink : list Data.t;
  iter : nat;
  started : nat
}.

Section WorkerLoop.

Variable Post : nat -> string -> bytes -> Outcome.
Variable clock : nat -> Time.
Variable pickStop : nat -> bool.
Variable c : Callback.

(** [handlerRequest]. *)
Definition handlerRequest (k : nat) (w : Worker) (data : bytes) : Outcome :=
  if String.eqb (transport c) REST then Post k (point w) data
  else Fail "transport is not support".

(** The [select] of [handler]: a receive from a nil or an open, empty channel
    is never ready; a receive from a closed channel always is. *)
Definition select (k : nat) (w : Worker) : Selected :=
  match messageQueue w, stop w with
  | data :: rest, ChanClosed =>
      if pickStop k then SelStop else SelMsg data (setQueue rest w)
  | data :: rest, _ => SelMsg data (setQueue rest w)
  | [], ChanClosed => SelStop
  | [], _ => SelBlock
  end.

Definition panicError (r : string) : Error.t :=
  Error.mk 0 (String.append "[PANIC] " r) true.
Definition failError (err : string) : Error.t :=
  Error.mk 0 (String.append "[ERROR] " err) true.

(** [handler].  One unit of fuel is one iteration of the [for] loop.  A panic
    of the request unwinds to the deferred function, which sends the envelope
    and runs [go w.handler()]: the new loop goes on with the same worker. *)
Fixpoint handler (fuel : nat) (s : Loop) : Loop * Status :=
  match fuel with
  | O => (s, Running)
  | S fuel =>
      match select (iter s) (self s) with
      | SelStop => (s, Stopped)
      | SelBlock => (s, Waiting)
      | SelMsg data w =>
          match handlerRequest (iter s) w data with
          | Crash r =>
              handler fuel
                (mkLoop w (sink s ++ [sendReturn w (IError (Some (panicError r)))])
                        (S (iter s)) (S (started s)))
          | Fail err =>
              let w := fst (Inc c (clock (iter s)) w) in
              handler fuel
                (mkLoop w (sink s ++ [sendReturn w (IError (Some (failError err)))])
                        (S (iter s)) (started s))
          | Ok res =>
              let w := Reset w in
              handler fuel
                (mkLoop w (sink s ++ [sendReturn w (IResponse (Some (Response.mk res)))])
                        (S (iter s)) (started s))
          end
      end
  end.

End WorkerLoop.

(** ** callback.go *)

(** [findWorkerIndex]. *)
Fixpoint findFrom (i : Z) (l : list Worker) (endPoint : string) : Z :=
  match l with
  | [] => -1
  | worker :: l => if String.eqb (point worker) endPoint then i
                   else findFrom (i + 1) l endPoint
  end.

Definition findWorkerIndex (c : Callback) (endPoint : string) : Z :=
  findFrom 0 (endPoints c) endPoint.

(** [append(s[:i], s[i+1:]...)]. *)
Definition removeAt (i : nat) (l : list Worker) : list Worker :=
  take i l ++ drop (S i) l.

(** [AddEndpoint]. *)
Definition AddEndpoint (c : Callback) (host : string) : go Callback :=
  if negb (findWorkerIndex c host =? -1) then Return c
  else
    do wc <~ NewWorker c host;
    Return (setEndPoints (endPoints (snd wc) ++ [fst wc]) (snd wc)).

(** [DeleteEndpoint]. *)
Definition DeleteEndpoint (c : Callback) (host : string) : go Callback :=
  let index := findWorkerIndex c host in
  if index =? -1 then Return c
  else
    match endPoints c !! Z.to_nat index with
    | None => Panic "index out of range"
    | Some worker =>
        do _closed <~ Close worker;
        Return (setEndPoints (removeAt (Z.to_nat index) (endPoints c)) c)
    end.

(** [DeleteEndpoint] once more, as a step on the dispatcher its receiver
    points to: the dispatcher the call leaves, also when it panics, and how
    the call ends.  [Close] comes before the assignment to [c.endPoints], so
    a panic of [close] leaves the list as it was. *)
Definition DeleteEndpoint_run (c : Callback) (host : string) : Callback * go unit :=
  let index := findWorkerIndex c host in
  if index =? -1 then (c, Return tt)
  else
    match endPoints c !! Z.to_nat index with
    | None => (c, Panic "index out of range")
    | Some worker =>
        match Close worker with
        | Panic msg => (c, Panic msg)
        | Return _closed =>
            (setEndPoints (removeAt (Z.to_nat index) (endPoints c)) c, Return tt)
        end
    end.

(** [SyncEndPoint]: the set of the new hosts, the loop that removes, from the
    last index down to 0, and the loop that adds. *)
Definition hostSet (hosts : list string) : gset string := list_to_set hosts.

Fixpoint syncRemove (newHosts : gset string) (n : nat) (l : list Worker)
  : go (list Worker) :=
  match n with
  | O => Return l
  | S i =>
      match l !! i with
      | None => Panic "index out of range"
      | Some worker =>
          if decide (point worker ∈ newHosts) then syncRemove newHosts i l
          else
            do _closed <~ Close worker;
            syncRemove newHosts i (removeAt i l)
      end
  end.

Fixpoint syncAdd (hosts : list string) (c : Callback) : go Callback :=
  match hosts with
  | [] => Return c
  | host :: hosts =>
      if findWorkerIndex c host =? -1 then
        do wc <~ NewWorker c host;
        syncAdd hosts (setEndPoints (endPoints (snd wc) ++ [fst wc]) (snd wc))
      else syncAdd hosts c
  end.

Definition SyncEndPoint (c : Callback) (hosts : list string) : go Callback :=
  do l <~ syncRemove (hostSet hosts) (length (endPoints c)) (endPoints c);
  syncAdd hosts (setEndPoints l c).

(** [New]: the dispatcher starts with no worker, cursor 0 and an empty
    channel. *)
Definition New (opt : Options) : go Callback :=
  let opt := defaultOptions opt in
  SyncEndPoint
    (mkCallback (Transport opt) (DeliveryMode opt) [] (RetryLimit opt)
                (RetryTimeout opt) (RetryWindow opt) 0 [] 0)
    (EndPoints opt).

(** ** round_robin.go *)

(** The value an [int32] holds after an operation whose exact result is [z]. *)
Definition wrap32 (z : Z) : Z := (z + 2 ^ 31) mod 2 ^ 32 - 2 ^ 31.

Definition maxInt32 : Z := 2 ^ 31 - 1.
Definition minInt32 : Z := - 2 ^ 31.

(** [v.Add(delta)] on an [atomic.Int32] holding [v]: the new value. *)
Definition atomicAdd (v delta : Z) : Z := wrap32 (v + delta).

(** [int(c.roundRobinIndex.Add(1)-1) % len(c.endPoints)] for a cursor holding
    [v] and a list of length [len]: Go's [%] truncates towards zero, as
    [Z.rem] does. *)
Definition candidateIndex (v : Z) (len : nat) : Z :=
  Z.rem (wrap32 (atomicAdd v 1 - 1)) (Z.of_nat len).

Definition enqueue (data : bytes) (w : Worker) : Worker :=
  setQueue (messageQueue w ++ [data]) w.

Definition errAllBlocked : string :=
  "all endpoints are blocked due to unavailability".

(** [roundRobin].  [now i] is the reading of [time.Now()] in iteration [i];
    [fuel] counts the iterations left, [len(c.endPoints) - i].  The error
    result is [None] for [nil]. *)
Fixpoint roundRobinFrom (now : nat -> Time) (fuel i : nat) (c : Callback) (data : bytes)
  : Callback * go (option string) :=
  match fuel with
  | O => (c, Return (Some errAllBlocked))
  | S fuel =>
      let index := candidateIndex (roundRobinIndex c) (length (endPoints c)) in
      let c := setRoundRobinIndex (atomicAdd (roundRobinIndex c) 1) c in
      if index <? 0 then (c, Panic "index out of range")
      else
        match endPoints c !! Z.to_nat index with
        | None => (c, Panic "index out of range")
        | Some worker =>
            if negb (After (now i) (blockedUntil worker))
            then roundRobinFrom now fuel (S i) c data
            else (setEndPoints (<[Z.to_nat index := enqueue data worker]> (endPoints c)) c,
                  Return None)
        end
  end.

Definition roundRobin (now : nat -> Time) (c : Callback) (data : bytes)
  : Callback * go (option string) :=
  roundRobinFrom now (length (endPoints c)) 0 c data.

(** [Emit]: the result of [roundRobin] is dropped, a panic is not. *)
Definition Emit (now : nat -> Time) (c : Callback) (data : bytes)
  : Callback * go (option string) :=
  if String.eqb (deliveryMode c) RoundRobin then
    match roundRobin now c data with
    | (c, Return _) => (c, Return None)
    | (c, Panic msg) => (c, Panic msg)
    end
  else if String.eqb (deliveryMode c) Broadcast then (c, Return None)
  else (c, Return None).

(** [Emit] called once per payload, in order; the [k]-th call reads the clock
    [nows k].  A panic ends the run. *)
Fixpoint emitAll (nows : nat -> nat -> Time) (k : nat) (c : Callback) (datas : list bytes)
  : Callback * go (option string) :=
  match datas with
  | [] => (c, Return None)
  | data :: datas =>
      match Emit (nows k) c data with
      | (c, Return _) => emitAll nows (S k) c datas
      | (c, Panic msg) => (c, Panic msg)
      end
  end.

(** ** callback.go: the consumer of the shared channel *)

(** The user's function [func(data *Data)]: what a call with an envelope
    does, return ([None]) or panic with a value printed as [r] ([Some r]). *)
Definition UserFn : Type := Data.t -> option string.

(** The envelope the deferred function of [Callback.handler] builds from a
    recovered value. *)
Definition globalPanic (r : string) : Data.t :=
  Data.mk "" false None
          (Some (Error.mk 0 (String.append "[PANIC] global error: " r) true)).

(** [Callback.handler], with [clb] the value of the field [c.callback] (what
    [On] stored there, [None] for nil), [channel] what [c.returnChannel]
    holds and will hold, and [calls] the envelopes the user's function has
    been called with so far.  A panic of the user's function unwinds to the
    deferred function, which calls it with [globalPanic r] and runs
    [go c.handler()]: the new loop goes on with the rest of the channel.  A
    panic of that second call is recovered by nobody.  The channel is never
    closed: with nothing left the loop waits. *)
Fixpoint Callback_handler (clb : option UserFn) (channel calls : list Data.t)
  : go (list Data.t) :=
  match channel with
  | [] => Return calls
  | data :: channel =>
      match clb with
      | None => Callback_handler clb channel calls
      | Some f =>
          match f data with
          | None => Callback_handler clb channel (calls ++ [data])
          | Some r =>
              match f (globalPanic r) with
              | None => Callback_handler clb channel (calls ++ [data; globalPanic r])
              | Some r' => Panic r'
              end
          end
      end
  end.

(** ** transport/rest.go *)

Module transport.

(** A Go result pair [(value, error)] with exactly one side set. *)
Inductive result (A : Type) : Type :=
| Success (a : A)
| Failure (err : string).
Arguments Success {A} a.
Arguments Failure {A} err.

(** What [Post] reads of an [*http.Response]: the status code and what
    [io.ReadAll(resp.Body)] gives. *)
Record HttpResponse : Type := mkHttpResponse {
  StatusCode : Z;
  Body : result bytes
}.

(** Package [net/http] as [Post] uses it: the error of
    [http.NewRequest("POST", host, body)], [None] for nil, and the result of
    [client.Do] for a request to [host] carrying [data]. *)
Record Client : Type := mkClient {
  NewRequest : string -> option string;
  Do : string -> bytes -> result HttpResponse
}.

(** [Post]. *)
Definition Post (net : Client) (host : string) (data : bytes) : Outcome :=
  match NewRequest net host with
  | Some err => Fail err
  | None =>
      match Do net host data with
      | Failure err => Fail err
      | Success resp =>
          if negb (StatusCode resp =? 200)
          then Fail "received non-200 response code"
          else match Body resp with
               | Failure err => Fail err
               | Success responseBody => Ok responseBody
               end
      end
  end.

End transport.

(** ** options_test.go: the helper of the tests *)

(** The loop of [slicesEqual] from index [i], [fuel] elements of [a] left. *)
Fixpoint slicesEqualFrom (fuel i : nat) (a b : list string) : go bool :=
  match fuel with
  | O => Return true
  | S fuel =>
      match a !! i, b !! i with
      | Some x, Some y =>
          if negb (String.eqb x y) then Return false
          else slicesEqualFrom fuel (S i) a b
      | _, _ => Panic "index out of range"
      end
  end.

(** [slicesEqual]. *)
Definition slicesEqual (a b : list string) : go bool :=
  if negb (length a =? length b)%nat then Return false
  else slicesEqualFrom (length a) 0 a b.

(** * Vocabulary of the properties *)

(** ** Failures in a row *)

(** The worker after the failures recorded at the instants [nows], in order. *)
Definition failAll (c : Callback) (nows : list Time) (w : Worker) : Worker :=
  fold_left (fun w now => fst (Inc c now w)) nows w.

(** ** Selections *)

(** The position a cursor value [v] selects among [len] workers while the
    cursor has not wrapped. *)
Definition slotOf (v : Z) (len : nat) : nat := Z.to_nat (v mod Z.of_nat len).

(** The worker tried at attempt [k] is not available when it is tried. *)
Definition blockedAt (now : nat -> Time) (c : Callback) (i k : nat) : Prop :=
  forall w : Worker,
    endPoints c !! slotOf (roundRobinIndex c + Z.of_nat k) (length (endPoints c)) = Some w ->
    After (now (i + k)%nat) (blockedUntil w) = false.

(** What a selection over [fuel] attempts does, away from the wrap: it tries
    the positions [cursor mod N], [(cursor + 1) mod N], ... in turn and stops
    at the first worker that is available when tried; the payload goes
    behind what that worker has queued. *)
Definition deliveredAt (now : nat -> Time) (data : bytes) (fuel i : nat) (c : Callback)
  : Prop :=
  exists (j : nat) (w : Worker),
    (j < fuel)%nat
    /\ (forall k : nat, (k < j)%nat -> blockedAt now c i k)
    /\ endPoints c !! slotOf (roundRobinIndex c + Z.of_nat j) (length (endPoints c)) = Some w
    /\ After (now (i + j)%nat) (blockedUntil w) = true
    /\ roundRobinFrom now fuel i c data
       = (setEndPoints
            (<[slotOf (roundRobinIndex c + Z.of_nat j) (length (endPoints c))
               := setQueue (messageQueue w ++ [data]) w]> (endPoints c))
            (setRoundRobinIndex (roundRobinIndex c + Z.of_nat j + 1) c),
          Return None).

Definition allBlocked (now : nat -> Time) (data : bytes) (fuel i : nat) (c : Callback)
  : Prop :=
  (forall k : nat, (k < fuel)%nat -> blockedAt now c i k)
  /\ roundRobinFrom now fuel i c data
     = (setRoundRobinIndex (roundRobinIndex c + Z.of_nat fuel) c,
        Return (Some errAllBlocked)).

(** The workers are available at every reading of the clocks [nows]. *)
Definition alwaysAvailable (nows : nat -> nat -> Time) (l : list Worker) : Prop :=
  Forall (fun w => forall k i : nat, After (nows k i) (blockedUntil w) = true) l.

(** ** Envelopes *)

(** An envelope of the endpoint [pt] with exactly one of its two pointer
    fields set, the one [Success] announces. *)
Definition wellFormed (pt : string) (d : Data.t) : Prop :=
  Data.Point d = pt
  /\ ((Data.Success d = true /\ Data.Response d <> None /\ Data.Error d = None)
      \/ (Data.Success d = false /\ Data.Error d <> None /\ Data.Response d = None)).

(** ** Membership *)

(** The workers [SyncEndPoint] keeps, in their order. *)
Definition retained (hosts : list string) (l : list Worker) : list Worker :=
  filter (fun w => point w ∈ hostSet hosts) l.

(** Every worker of the dispatcher has the nil stop channel. *)
Definition neverMade (c : Callback) : Prop :=
  Forall (fun w => stop w = ChanNil) (endPoints c).

(** ** Dispatchers used as instances *)

(** The options of a dispatcher with three endpoints and every default. *)
Definition threeOptions : Options := mkOptions "" "" "" ["a"; "b"; "c"] 0 0 0.

(** The dispatcher [New(&threeOptions)] returns. *)
Definition three : Callback :=
  mkCallback REST RoundRobin
             [mkWorker 0 "a" [] [] zeroTime ChanNil;
              mkWorker 1 "b" [] [] zeroTime ChanNil;
              mkWorker 2 "c" [] [] zeroTime ChanNil]
             5 (Second * 5) (Second * 3) 0 [] 3.

(** The dispatcher [New(&Options{})] returns: no endpoint. *)
Definition noEndpoints : Callback :=
  mkCallback REST RoundRobin [] 5 (Second * 5) (Second * 3) 0 [] 0.

(** A dispatcher configured as in examples/default: limit 2, timeout 5 s,
    window 1 s. *)
Definition strict : Callback :=
  mkCallback REST RoundRobin [] 2 (Second * 5) Second 0 [] 0.



(** Comparisons of integer literals, by evaluation. *)
Ltac zcmp :=
  repeat match goal with |- _ /\ _ => split end;
  vm_compute; first [reflexivity | discriminate | intros; discriminate].

(** ** Vocabulary of the further properties *)

(** Failures each at least [window] after the one before, the first at least
    [window] after [prev]. *)
Fixpoint spaced (window : Duration) (prev : Time) (ts : list Time) : Prop :=
  match ts with
  | [] => True
  | t :: ts => prev + window <= t /\ spaced window t ts
  end.

(** The envelope a worker of endpoint [pt] sends for the outcome of a
    request. *)
Definition envelopeOf (pt : string) (o : Outcome) : Data.t :=
  match o with
  | Ok res => Data.mk pt true (Some (Response.mk res)) None
  | Fail err =>
      Data.mk pt false None (Some (Error.mk 0 (String.append "[ERROR] " err) true))
  | Crash r =>
      Data.mk pt false None (Some (Error.mk 0 (String.append "[PANIC] " r) true))
  end.

(** The envelopes for the messages [q], the first of them handled at
    iteration [k]. *)
Fixpoint envelopesFrom (Post : nat -> string -> bytes -> Outcome) (c : Callback)
         (w : Worker) (k : nat) (q : list bytes) : list Data.t :=
  match q with
  | [] => []
  | data :: q =>
      envelopeOf (point w) (handlerRequest Post c k w data)
      :: envelopesFrom Post c w (S k) q
  end.

(** The worker a request's outcome leaves at iteration [k]: a success resets
    the window, a failure is recorded at the clock reading of the iteration,
    a panic does neither. *)
Definition afterOutcome (clock : nat -> Time) (c : Callback) (k : nat) (w : Worker)
           (o : Outcome) : Worker :=
  match o with
  | Ok _ => Reset w
  | Fail _ => fst (Inc c (clock k) w)
  | Crash _ => w
  end.

(** Of the payloads [datas], emitted in turn from the cursor value [v] over
    [len] endpoints, those that go to position [p]. *)
Fixpoint picks (v : Z) (len p : nat) (datas : list bytes) : list bytes :=
  match datas with
  | [] => []
  | data :: datas =>
      (if decide (slotOf v len = p) then [data] else []) ++ picks (v + 1) len p datas
  end.

(** The hosts of [hosts] that have no worker yet, each once, in the order of
    their first occurrence; [present] are the endpoints that have one. *)
Fixpoint freshHosts (present hosts : list string) : list string :=
  match hosts with
  | [] => []
  | host :: hosts =>
      if decide (host ∈ present) then freshHosts present hosts
      else host :: freshHosts (present ++ [host]) hosts
  end.

(** The workers [NewWorker] makes for [hosts], the first at address [a]. *)
Fixpoint newWorkers (a : nat) (hosts : list string) : list Worker :=
  match hosts with
  | [] => []
  | host :: hosts => mkWorker a host [] [] zeroTime ChanNil :: newWorkers (S a) hosts
  end.

(** The endpoints of the workers, in their order. *)
Definition points (l : list Worker) : list string := point <$> l.

(** The calls a user's function [f] gets for the envelopes [channel] when it
    returns from every call with a [globalPanic] envelope. *)
Definition callsFor (f : UserFn) (channel : list Data.t) : list Data.t :=
  flat_map (fun data => match f data with
                        | None => [data]
                        | Some r => [data; globalPanic r]
                        end) channel.

(** * Properties *)

(** ** The tests of the repository, replayed

    The clock reads 1000 s; [time.Now().Add(-time.Minute)] and
    [time.Now().Add(time.Minute)] are the deadlines 940 s and 1060 s. *)

Example TestRoundRobin_Success :
  let worker := mkWorker 0 "" [] [] (940 * Second) ChanNil in
  let data : bytes := [x74%byte] in
  roundRobin (fun _ => 1000 * Second) (setEndPoints [worker] noEndpoints) data
  = (setRoundRobinIndex 1 (setEndPoints [enqueue data worker] noEndpoints), Return None).
Proof. reflexivity. Qed.

Example TestRoundRobin_AllBlocked :
  let worker := mkWorker 0 "" [] [] (1060 * Second) ChanNil in
  roundRobin (fun _ => 1000 * Second) (setEndPoints [worker] noEndpoints) []
  = (setRoundRobinIndex 1 (setEndPoints [worker] noEndpoints),
     Return (Some "all endpoints are blocked due to unavailability")).
Proof. reflexivity. Qed.

Example TestRoundRobin_RoundRobinOrder :
  let worker1 := mkWorker 0 "" [] [] (940 * Second) ChanNil in
  let worker2 := mkWorker 1 "" [] [] (1060 * Second) ChanNil in
  let data1 : bytes := [x31%byte] in
  let data2 : bytes := [x32%byte] in
  let c1 := fst (roundRobin (fun _ => 1000 * Second)
                            (setEndPoints [worker1; worker2] noEndpoints) data1) in
  let c2 := setEndPoints [enqueue data1 worker1; setBlockedUntil (940 * Second) worker2] c1 in
  endPoints c1 = [enqueue data1 worker1; worker2]
  /\ roundRobin (fun _ => 1000 * Second) c2 data2
     = (setRoundRobinIndex 2
          (setEndPoints [enqueue data1 worker1;
                         enqueue data2 (setBlockedUntil (940 * Second) worker2)] c2),
        Return None).
Proof. split; reflexivity. Qed.

Example TestDefaultOptions_QUIC :
  defaultOptions (mkOptions QUIC "" "" [] 0 0 0)
  = mkOptions QUIC RoundRobin Next [] 5 (Second * 5) (Second * 3).
Proof. reflexivity. Qed.

Example TestDefaultOptions_RetryWindow :
  defaultOptions (mkOptions "" "" "" [] 0 0 (Second * 2))
  = mkOptions REST RoundRobin Next [] 5 (Second * 5) (Second * 2).
Proof. reflexivity. Qed.

(** ** Option defaults *)

(** C9. [defaultOptions] replaces each zero-valued field by its default
    (transport REST, delivery mode round-robin, retry mode next, limit 5,
    timeout 5 s, window 3 s), leaves each field that is set as it is, and
    never touches the endpoint list. *)
Theorem defaultOptions_defaults :
  forall opt : Options,
    let d := defaultOptions opt in
    (Transport opt = "" -> Transport d = "REST")
    /\ (Transport opt <> "" -> Transport d = Transport opt)
    /\ (DeliveryMode opt = "" -> DeliveryMode d = "round_robin")
    /\ (DeliveryMode opt <> "" -> DeliveryMode d = DeliveryMode opt)
    /\ (RetryMode opt = "" -> RetryMode d = "next")
    /\ (RetryMode opt <> "" -> RetryMode d = RetryMode opt)
    /\ (RetryLimit opt = 0 -> RetryLimit d = 5)
    /\ (RetryLimit opt <> 0 -> RetryLimit d = RetryLimit opt)
    /\ (RetryTimeout opt = 0 -> RetryTimeout d = 5 * Second)
    /\ (RetryTimeout opt <> 0 -> RetryTimeout d = RetryTimeout opt)
    /\ (RetryWindow opt = 0 -> RetryWindow d = 3 * Second)
    /\ (RetryWindow opt <> 0 -> RetryWindow d = RetryWindow opt)
    /\ EndPoints d = EndPoints opt.
Proof.
  intros [t dm rm eps lim tmo win].
  destruct t, dm, rm, lim, tmo, win; cbv zeta;
    repeat split; cbn; intros; first [reflexivity | congruence].
Qed.

Lemma defaultOptions_endPoints (opt : Options) :
  EndPoints (defaultOptions opt) = EndPoints opt.
Proof.
  destruct opt as [t dm rm eps lim tmo win].
  destruct t, dm, rm, lim, tmo, win; reflexivity.
Qed.

(** ** The failure window of a worker *)

Lemma Inc_frame (c : Callback) (now : Time) (w : Worker) :
  addr (fst (Inc c now w)) = addr w
  /\ point (fst (Inc c now w)) = point w
  /\ messageQueue (fst (Inc c now w)) = messageQueue w
  /\ stop (fst (Inc c now w)) = stop w.
Proof.
  unfold Inc; cbn.
  destruct (_ >? _); [destruct (After _ _)|]; cbn; auto.
Qed.

Lemma wrap64_small (z : Z) : minInt64 <= z <= maxInt64 -> wrap64 z = z.
Proof.
  unfold wrap64, minInt64, maxInt64; intros H.
  rewrite Z.mod_small; lia.
Qed.

(** The negation of every duration but the least one is exact. *)
Lemma wrap64_opp (d : Duration) :
  minInt64 < d <= maxInt64 -> wrap64 (- d) = - d.
Proof.
  intros H; apply wrap64_small. unfold minInt64, maxInt64 in *; lia.
Qed.

Lemma Inc_errorTimestamps (c : Callback) (now : Time) (w : Worker) :
  errorTimestamps (fst (Inc c now w))
  = List.filter (fun ts => now + wrap64 (- retryWindow c) <? ts) (errorTimestamps w)
    ++ [now].
Proof.
  unfold Inc; cbn.
  destruct (_ >? _); [destruct (After _ _)|]; cbn; reflexivity.
Qed.

Lemma Inc_errorTimestamps_exact (c : Callback) (now : Time) (w : Worker) :
  minInt64 < retryWindow c <= maxInt64 ->
  errorTimestamps (fst (Inc c now w))
  = List.filter (fun ts => now - retryWindow c <? ts) (errorTimestamps w) ++ [now].
Proof.
  intros Hrw. rewrite Inc_errorTimestamps, wrap64_opp by exact Hrw. reflexivity.
Qed.

Lemma Inc_blockedUntil (c : Callback) (now : Time) (w : Worker) :
  blockedUntil (fst (Inc c now w))
  = if (retryLimit c <? Z.of_nat (length (errorTimestamps (fst (Inc c now w)))))
       && (blockedUntil w <? now)
    then now + retryTimeout c else blockedUntil w.
Proof.
  rewrite Inc_errorTimestamps. unfold Inc, After, Add; cbn.
  rewrite Z.gtb_ltb.
  destruct (_ <? Z.of_nat _); [destruct (blockedUntil w <? now)|]; cbn; reflexivity.
Qed.

Lemma Inc_returns (c : Callback) (now : Time) (w : Worker) :
  snd (Inc c now w)
  = if retryLimit c <? Z.of_nat (length (errorTimestamps (fst (Inc c now w))))
    then true else Before now (blockedUntil w).
Proof.
  rewrite Inc_errorTimestamps. unfold Inc, After, Add; cbn.
  rewrite Z.gtb_ltb.
  destruct (_ <? Z.of_nat _); [destruct (blockedUntil w <? now)|]; cbn; reflexivity.
Qed.

(** C5. [Reset] empties the failure window and puts [blockedUntil] back to
    the zero time, whatever the worker went through before, so the worker is
    available at every instant after the zero time; no other field changes. *)
Theorem Reset_clears :
  forall w : Worker,
    errorTimestamps (Reset w) = []
    /\ blockedUntil (Reset w) = zeroTime
    /\ (forall (c : Callback) (failures : list Time),
           errorTimestamps (Reset (failAll c failures w)) = []
           /\ blockedUntil (Reset (failAll c failures w)) = zeroTime)
    /\ (forall now : Time, After now (blockedUntil (Reset w)) = (0 <? now))
    /\ addr (Reset w) = addr w
    /\ point (Reset w) = point w
    /\ messageQueue (Reset w) = messageQueue w
    /\ stop (Reset w) = stop w.
Proof.
  intros w; unfold Reset; cbn. repeat split.
Qed.


Lemma failAll_cons (c : Callback) (s : Time) (ts : list Time) (w : Worker) :
  failAll c (s :: ts) w = failAll c ts (fst (Inc c s w)).
Proof. reflexivity. Qed.







(** ** Round-robin selection *)

Lemma wrap32_small (z : Z) : minInt32 <= z <= maxInt32 -> wrap32 z = z.
Proof.
  unfold wrap32, minInt32, maxInt32; intros H.
  rewrite Z.mod_small; lia.
Qed.

Lemma atomicAdd_small (v : Z) :
  minInt32 <= v < maxInt32 -> atomicAdd v 1 = v + 1.
Proof. intros H; unfold atomicAdd; apply wrap32_small; lia. Qed.

(** [Add(1) - 1] gives back the value the cursor held, also across the wrap. *)
Lemma candidateIndex_rem (v : Z) (len : nat) :
  minInt32 <= v <= maxInt32 -> candidateIndex v len = Z.rem v (Z.of_nat len).
Proof.
  intros H; unfold candidateIndex; f_equal.
  destruct (Z.eq_dec v maxInt32) as [->|Hne]; [reflexivity|].
  rewrite atomicAdd_small by lia.
  replace (v + 1 - 1) with v by lia. apply wrap32_small; lia.
Qed.

Lemma candidateIndex_mod (v : Z) (len : nat) :
  0 <= v <= maxInt32 -> (0 < len)%nat ->
  candidateIndex v len = v mod Z.of_nat len.
Proof.
  intros Hv Hlen. rewrite candidateIndex_rem by (unfold minInt32, maxInt32 in *; lia).
  apply Z.rem_mod_nonneg; lia.
Qed.

Lemma slotOf_lt (v : Z) (len : nat) : (0 < len)%nat -> (slotOf v len < len)%nat.
Proof.
  intros Hlen; unfold slotOf.
  pose proof (Z.mod_pos_bound v (Z.of_nat len) ltac:(lia)). lia.
Qed.

Lemma slotOf_lookup (v : Z) (l : list Worker) :
  l <> [] -> exists w, l !! slotOf v (length l) = Some w.
Proof.
  intros Hl. apply lookup_lt_is_Some_2, slotOf_lt.
  destruct l; [congruence|cbn; lia].
Qed.

(** One iteration of the loop of [roundRobin], away from the wrap. *)
Lemma roundRobinFrom_step (now : nat -> Time) (fuel i : nat) (c : Callback)
      (data : bytes) (w : Worker) :
  0 <= roundRobinIndex c < maxInt32 ->
  endPoints c !! slotOf (roundRobinIndex c) (length (endPoints c)) = Some w ->
  roundRobinFrom now (S fuel) i c data
  = if After (now i) (blockedUntil w)
    then (setEndPoints
            (<[slotOf (roundRobinIndex c) (length (endPoints c)) := enqueue data w]>
               (endPoints c))
            (setRoundRobinIndex (roundRobinIndex c + 1) c),
          Return None)
    else roundRobinFrom now fuel (S i) (setRoundRobinIndex (roundRobinIndex c + 1) c) data.
Proof.
  intros Hv Hw.
  assert (Hlen : (0 < length (endPoints c))%nat).
  { apply lookup_lt_Some in Hw. lia. }
  cbn [roundRobinFrom].
  rewrite candidateIndex_mod by lia.
  rewrite atomicAdd_small by (unfold minInt32; lia).
  pose proof (Z.mod_pos_bound (roundRobinIndex c) (Z.of_nat (length (endPoints c)))
                ltac:(lia)) as Hb.
  replace (_ <? 0) with false by (symmetry; apply Z.ltb_ge; lia).
  change (endPoints (setRoundRobinIndex (roundRobinIndex c + 1) c)) with (endPoints c).
  fold (slotOf (roundRobinIndex c) (length (endPoints c))).
  rewrite Hw. destruct (After (now i) (blockedUntil w)); reflexivity.
Qed.

Lemma setRoundRobinIndex_same (c : Callback) (v : Z) :
  v = roundRobinIndex c -> setRoundRobinIndex v c = c.
Proof. intros ->; destruct c; reflexivity. Qed.

Section Selection.

Variable now : nat -> Time.
Variable data : bytes.

Lemma blockedAt_shift (c : Callback) (i k : nat) :
  blockedAt now c i (S k) ->
  blockedAt now (setRoundRobinIndex (roundRobinIndex c + 1) c) (S i) k.
Proof.
  unfold blockedAt; cbn; intros H w Hw.
  replace (S (i + k)) with (i + S k)%nat by lia. apply H.
  replace (roundRobinIndex c + Z.of_nat (S k)) with (roundRobinIndex c + 1 + Z.of_nat k)
    by lia.
  exact Hw.
Qed.

(** All the attempts fail: the error, the cursor moved by their number, no
    queue touched. *)
Lemma roundRobinFrom_fails (fuel : nat) :
  forall (i : nat) (c : Callback),
    endPoints c <> [] ->
    0 <= roundRobinIndex c ->
    roundRobinIndex c + Z.of_nat fuel <= maxInt32 ->
    (forall k : nat, (k < fuel)%nat -> blockedAt now c i k) ->
    roundRobinFrom now fuel i c data
    = (setRoundRobinIndex (roundRobinIndex c + Z.of_nat fuel) c,
       Return (Some errAllBlocked)).
Proof.
  induction fuel as [|fuel IH]; intros i c Hne Hv Hmax Hall.
  - cbn [roundRobinFrom]. rewrite setRoundRobinIndex_same by (cbn; lia). reflexivity.
  - destruct (slotOf_lookup (roundRobinIndex c) (endPoints c) Hne) as [w Hw].
    rewrite (roundRobinFrom_step _ _ _ _ _ w) by (try exact Hw; lia).
    assert (Hblk : After (now i) (blockedUntil w) = false).
    { specialize (Hall 0%nat ltac:(lia) w).
      rewrite Z.add_0_r, Nat.add_0_r in Hall. auto. }
    rewrite Hblk, IH; cbn [roundRobinIndex endPoints setRoundRobinIndex].
    + unfold setRoundRobinIndex; cbn. do 2 f_equal. lia.
    + exact Hne.
    + lia.
    + lia.
    + intros k Hk. apply blockedAt_shift, Hall. lia.
Qed.

(** Attempt [j] is the first to find its worker available: that worker gets
    the payload, and the cursor has moved by [j + 1]. *)
Lemma roundRobinFrom_delivers (fuel : nat) :
  forall (i j : nat) (c : Callback) (w : Worker),
    0 <= roundRobinIndex c ->
    roundRobinIndex c + Z.of_nat fuel <= maxInt32 ->
    (j < fuel)%nat ->
    (forall k : nat, (k < j)%nat -> blockedAt now c i k) ->
    endPoints c !! slotOf (roundRobinIndex c + Z.of_nat j) (length (endPoints c)) = Some w ->
    After (now (i + j)%nat) (blockedUntil w) = true ->
    roundRobinFrom now fuel i c data
    = (setEndPoints
         (<[slotOf (roundRobinIndex c + Z.of_nat j) (length (endPoints c))
            := enqueue data w]> (endPoints c))
         (setRoundRobinIndex (roundRobinIndex c + Z.of_nat j + 1) c),
       Return None).
Proof.
  induction fuel as [|fuel IH]; intros i j c w Hv Hmax Hj Hbefore Hw Hav; [lia|].
  assert (Hne : endPoints c <> []).
  { intros E; rewrite E in Hw; discriminate. }
  destruct j as [|j].
  - rewrite Z.add_0_r in *. rewrite Nat.add_0_r in Hav.
    rewrite (roundRobinFrom_step _ _ _ _ _ w) by (try exact Hw; lia).
    rewrite Hav. reflexivity.
  - destruct (slotOf_lookup (roundRobinIndex c) (endPoints c) Hne) as [w0 Hw0].
    rewrite (roundRobinFrom_step _ _ _ _ _ w0) by (try exact Hw0; lia).
    assert (Hblk : After (now i) (blockedUntil w0) = false).
    { specialize (Hbefore 0%nat ltac:(lia) w0).
      rewrite Z.add_0_r, Nat.add_0_r in Hbefore. auto. }
    rewrite Hblk.
    rewrite (IH (S i) j _ w); cbn [roundRobinIndex endPoints setRoundRobinIndex].
    + replace (roundRobinIndex c + 1 + Z.of_nat j) with (roundRobinIndex c + Z.of_nat (S j))
        by lia.
      reflexivity.
    + lia.
    + lia.
    + lia.
    + intros k Hk. apply blockedAt_shift, Hbefore. lia.
    + replace (roundRobinIndex c + 1 + Z.of_nat j) with (roundRobinIndex c + Z.of_nat (S j))
        by lia.
      exact Hw.
    + replace (S i + j)%nat with (i + S j)%nat by lia. exact Hav.
Qed.

(** An error result means that every attempt found its worker blocked. *)
Lemma roundRobinFrom_error (fuel : nat) :
  forall (i : nat) (c : Callback) (e : string),
    0 <= roundRobinIndex c ->
    roundRobinIndex c + Z.of_nat fuel <= maxInt32 ->
    endPoints c <> [] ->
    snd (roundRobinFrom now fuel i c data) = Return (Some e) ->
    forall k : nat, (k < fuel)%nat -> blockedAt now c i k.
Proof.
  induction fuel as [|fuel IH]; intros i c e Hv Hmax Hne Hres k Hk; [lia|].
  destruct (slotOf_lookup (roundRobinIndex c) (endPoints c) Hne) as [w0 Hw0].
  rewrite (roundRobinFrom_step _ _ _ _ _ w0) in Hres by (try exact Hw0; lia).
  destruct (After (now i) (blockedUntil w0)) eqn:Hav; [discriminate|].
  destruct k as [|k].
  - intros w Hw. rewrite Z.add_0_r in Hw. rewrite Nat.add_0_r. congruence.
  - specialize (IH (S i) (setRoundRobinIndex (roundRobinIndex c + 1) c) e
                   ltac:(cbn; lia) ltac:(cbn; lia) Hne Hres k ltac:(lia)).
    intros w Hw. replace (i + S k)%nat with (S i + k)%nat by lia. apply IH. cbn.
    replace (roundRobinIndex c + 1 + Z.of_nat k) with (roundRobinIndex c + Z.of_nat (S k))
      by lia.
    exact Hw.
Qed.

End Selection.

Lemma blockedAt_unshift (now : nat -> Time) (c : Callback) (i k : nat) :
  blockedAt now (setRoundRobinIndex (roundRobinIndex c + 1) c) (S i) k ->
  blockedAt now c i (S k).
Proof.
  unfold blockedAt; cbn; intros H w Hw.
  replace (i + S k)%nat with (S (i + k)) by lia. apply H.
  replace (roundRobinIndex c + 1 + Z.of_nat k) with (roundRobinIndex c + Z.of_nat (S k))
    by lia.
  exact Hw.
Qed.

Lemma roundRobinFrom_cases (now : nat -> Time) (data : bytes) (fuel : nat) :
  forall (i : nat) (c : Callback),
    endPoints c <> [] ->
    0 <= roundRobinIndex c ->
    roundRobinIndex c + Z.of_nat fuel <= maxInt32 ->
    deliveredAt now data fuel i c \/ allBlocked now data fuel i c.
Proof.
  induction fuel as [|fuel IH]; intros i c Hne Hv Hmax.
  - right. split; [intros k Hk; lia|].
    apply roundRobinFrom_fails; auto. intros k Hk; lia.
  - destruct (slotOf_lookup (roundRobinIndex c) (endPoints c) Hne) as [w0 Hw0].
    destruct (After (now i) (blockedUntil w0)) eqn:Hav.
    + left. exists 0%nat, w0.
      assert (Hw0' : endPoints c !! slotOf (roundRobinIndex c + Z.of_nat 0)
                                     (length (endPoints c)) = Some w0)
        by (rewrite Z.add_0_r; exact Hw0).
      assert (Hav' : After (now (i + 0)%nat) (blockedUntil w0) = true)
        by (rewrite Nat.add_0_r; exact Hav).
      repeat split; [lia | intros k Hk; lia | exact Hw0' | exact Hav' |].
      apply roundRobinFrom_delivers; auto; [lia | intros k Hk; lia].
    + assert (H0 : blockedAt now c i 0).
      { intros w Hw. rewrite Z.add_0_r in Hw. rewrite Nat.add_0_r. congruence. }
      assert (Hprefix : forall j : nat,
                 (forall k : nat, (k < j)%nat ->
                     blockedAt now (setRoundRobinIndex (roundRobinIndex c + 1) c) (S i) k) ->
                 forall k : nat, (k < S j)%nat -> blockedAt now c i k).
      { intros j Hj [|k] Hk; [exact H0|]. apply blockedAt_unshift, Hj. lia. }
      destruct (IH (S i) (setRoundRobinIndex (roundRobinIndex c + 1) c) Hne
                   ltac:(cbn; lia) ltac:(cbn; lia))
        as [(j & w & Hj & Hbefore & Hw & Hwav & _) | [Hall _]].
      * left. exists (S j), w. cbn in Hw.
        replace (roundRobinIndex c + 1 + Z.of_nat j)
          with (roundRobinIndex c + Z.of_nat (S j)) in Hw by lia.
        replace (S i + j)%nat with (i + S j)%nat in Hwav by lia.
        repeat split; [lia | apply Hprefix, Hbefore | exact Hw | exact Hwav |].
        apply roundRobinFrom_delivers; auto; try lia. apply Hprefix, Hbefore.
      * right. split; [apply Hprefix, Hall|].
        apply roundRobinFrom_fails; auto. apply Hprefix, Hall.
Qed.

(** Every position is tried once in [N] attempts. *)
Lemma slots_cover (v : Z) (len p : nat) :
  (p < len)%nat -> exists k : nat, (k < len)%nat /\ slotOf (v + Z.of_nat k) len = p.
Proof.
  intros Hp.
  pose proof (Z.mod_pos_bound (Z.of_nat p - v) (Z.of_nat len) ltac:(lia)) as Hb.
  exists (Z.to_nat ((Z.of_nat p - v) mod Z.of_nat len)). split; [lia|].
  unfold slotOf. rewrite Z2Nat.id by lia.
  rewrite Z.add_mod_idemp_r by lia.
  replace (v + (Z.of_nat p - v)) with (Z.of_nat p) by lia.
  rewrite Z.mod_small by lia. lia.
Qed.

(** [roundRobin] read at one instant [t], away from the wrap: the error is
    returned exactly when no worker is available at [t] (an empty list
    included). *)
Lemma roundRobin_error_iff (t : Time) (c : Callback) (data : bytes) :
  0 <= roundRobinIndex c ->
  roundRobinIndex c + Z.of_nat (length (endPoints c)) <= maxInt32 ->
  snd (roundRobin (fun _ => t) c data) = Return (Some errAllBlocked)
  <-> Forall (fun w => After t (blockedUntil w) = false) (endPoints c).
Proof.
  intros Hv Hmax. unfold roundRobin.
  destruct (endPoints c) as [|w0 l] eqn:El.
  - cbn. split; [constructor | reflexivity].
  - assert (Hne : endPoints c <> []) by (rewrite El; discriminate).
    rewrite <- El in *. split.
    + intros Hres. apply Forall_lookup_2. intros p w Hp.
      destruct (slots_cover (roundRobinIndex c) (length (endPoints c)) p)
        as (k & Hk & Hslot); [eapply lookup_lt_Some; exact Hp|].
      pose proof (roundRobinFrom_error (fun _ => t) data _ 0 c errAllBlocked
                    Hv Hmax Hne Hres k Hk w) as Hb.
      rewrite Hslot in Hb. auto.
    + intros Hall. rewrite roundRobinFrom_fails; auto.
      intros k Hk w Hw. eapply Forall_lookup_1 in Hall; [|exact Hw]. exact Hall.
Qed.

(** ** [Emit] in round-robin mode *)

Lemma Emit_roundRobin (now : nat -> Time) (c : Callback) (data : bytes) :
  deliveryMode c = RoundRobin ->
  Emit now c data
  = match roundRobin now c data with
    | (c', Return _) => (c', Return None)
    | (c', Panic msg) => (c', Panic msg)
    end.
Proof. intros Hmode; unfold Emit; rewrite Hmode; reflexivity. Qed.

(** With the worker under the cursor available, [Emit] hands it the payload
    and moves the cursor by one. *)
Lemma Emit_available (now : nat -> Time) (c : Callback) (data : bytes) :
  deliveryMode c = RoundRobin ->
  endPoints c <> [] ->
  0 <= roundRobinIndex c < maxInt32 ->
  Forall (fun w => After (now 0%nat) (blockedUntil w) = true) (endPoints c) ->
  exists w : Worker,
    endPoints c !! slotOf (roundRobinIndex c) (length (endPoints c)) = Some w
    /\ Emit now c data
       = (setEndPoints
            (<[slotOf (roundRobinIndex c) (length (endPoints c)) := enqueue data w]>
               (endPoints c))
            (setRoundRobinIndex (roundRobinIndex c + 1) c),
          Return None).
Proof.
  intros Hmode Hne Hv Hall.
  destruct (slotOf_lookup (roundRobinIndex c) (endPoints c) Hne) as [w Hw].
  exists w; split; [exact Hw|].
  rewrite Emit_roundRobin by exact Hmode. unfold roundRobin.
  assert (Hlen : length (endPoints c) = S (pred (length (endPoints c)))).
  { apply lookup_lt_Some in Hw. lia. }
  rewrite Hlen at 1.
  rewrite (roundRobinFrom_step _ _ _ _ _ w Hv Hw).
  rewrite (Forall_lookup_1 _ _ _ _ Hall Hw). reflexivity.
Qed.

Lemma emitAll_available (nows : nat -> nat -> Time) (datas : list bytes) :
  forall (k : nat) (c : Callback),
    deliveryMode c = RoundRobin ->
    endPoints c <> [] ->
    0 <= roundRobinIndex c ->
    roundRobinIndex c + Z.of_nat (length datas) <= maxInt32 ->
    alwaysAvailable nows (endPoints c) ->
    snd (emitAll nows k c datas) = Return None
    /\ deliveryMode (fst (emitAll nows k c datas)) = RoundRobin
    /\ roundRobinIndex (fst (emitAll nows k c datas))
       = roundRobinIndex c + Z.of_nat (length datas)
    /\ length (endPoints (fst (emitAll nows k c datas))) = length (endPoints c)
    /\ alwaysAvailable nows (endPoints (fst (emitAll nows k c datas))).
Proof.
  induction datas as [|data datas IH]; intros k c Hmode Hne Hv Hmax Hall.
  - cbn. rewrite Z.add_0_r. auto.
  - cbn [length] in Hmax. cbn [emitAll].
    destruct (Emit_available (nows k) c data Hmode Hne ltac:(lia)) as (w & Hw & ->).
    { eapply Forall_impl; [exact Hall|]. cbn; auto. }
    set (c1 := setEndPoints _ _).
    destruct (IH (S k) c1) as (Hres & Hm & Hidx & Hlen & Hav).
    + exact Hmode.
    + intros E. apply (f_equal length) in E. subst c1; cbn in E.
      rewrite length_insert in E. destruct (endPoints c); [congruence|discriminate].
    + subst c1; cbn; lia.
    + subst c1; cbn; lia.
    + subst c1; cbn. apply Forall_insert; [exact Hall|].
      intros k' i'. cbn. exact (Forall_lookup_1 _ _ _ _ Hall Hw k' i').
    + repeat split; [exact Hres | exact Hm | | | exact Hav].
      * rewrite Hidx. subst c1; cbn [roundRobinIndex setEndPoints setRoundRobinIndex length].
        lia.
      * rewrite Hlen. subst c1; cbn. apply length_insert.
Qed.

(** The order of the deliveries while the cursor stays within the
    non-negative [int32] values.  With every endpoint available, the emit
    that follows [n] earlier ones puts its payload behind the queue of the
    endpoint at position [(cursor + n) mod N], [N] the number of endpoints
    and [cursor] the cursor before the first emit.  A
    selection tries at most [N] workers, the one at [cursor mod N] first and
    the next position (wrapping) at each further attempt, and takes the first
    that is available when tried; it fails when none of the [N] is.  A worker
    is available exactly when the clock reads strictly after its
    [blockedUntil]. *)
Lemma roundRobin_order :
  (forall (nows : nat -> nat -> Time) (c : Callback) (datas : list bytes) (data : bytes),
      deliveryMode c = RoundRobin ->
      endPoints c <> [] ->
      0 <= roundRobinIndex c ->
      roundRobinIndex c + Z.of_nat (length datas) < maxInt32 ->
      alwaysAvailable nows (endPoints c) ->
      let n := length datas in
      let cn := fst (emitAll nows 0 c datas) in
      let slot := slotOf (roundRobinIndex c + Z.of_nat n) (length (endPoints c)) in
      snd (emitAll nows 0 c datas) = Return None
      /\ exists w : Worker,
          endPoints cn !! slot = Some w
          /\ Emit (nows n) cn data
             = (setEndPoints
                  (<[slot := setQueue (messageQueue w ++ [data]) w]> (endPoints cn))
                  (setRoundRobinIndex (roundRobinIndex c + Z.of_nat n + 1) cn),
                Return None))
  /\ (forall (now : nat -> Time) (c : Callback) (data : bytes),
         endPoints c <> [] ->
         0 <= roundRobinIndex c ->
         roundRobinIndex c + Z.of_nat (length (endPoints c)) <= maxInt32 ->
         deliveredAt now data (length (endPoints c)) 0 c
         \/ allBlocked now data (length (endPoints c)) 0 c)
  /\ (forall now deadline : Time, After now deadline = true <-> deadline < now).
Proof.
  split; [|split].
  - intros nows c datas data Hmode Hne Hv Hmax Hall n cn slot.
    destruct (emitAll_available nows datas 0 c Hmode Hne Hv ltac:(lia) Hall)
      as (Hres & Hm & Hidx & Hlen & Hav).
    split; [exact Hres|].
    destruct (Emit_available (nows n) cn data Hm) as (w & Hw & HE).
    + intros E. apply (f_equal length) in E. subst cn. rewrite Hlen in E.
      destruct (endPoints c); [congruence|discriminate].
    + subst cn n. rewrite Hidx. lia.
    + eapply Forall_impl; [exact Hav|]. cbn; auto.
    + subst cn n slot. rewrite Hidx, Hlen in Hw, HE. exists w. split; [exact Hw|].
      exact HE.
  - intros now c data Hne Hv Hmax. apply roundRobinFrom_cases; auto.
  - intros now deadline. unfold After. apply Z.ltb_lt.
Qed.

(** ** The envelopes of a worker *)

Lemma sendReturn_wellFormed (w : Worker) (result : iface) :
  result <> IResponse None -> result <> IError None ->
  wellFormed (point w) (sendReturn w result).
Proof.
  intros Hr He. destruct result as [[r|]|[e|]|]; try congruence; cbn;
    (split; [reflexivity|]); [left|right|right]; repeat split; discriminate.
Qed.

Section WorkerLoopFacts.

Variable Post : nat -> string -> bytes -> Outcome.
Variable clock : nat -> Time.
Variable pickStop : nat -> bool.
Variable c : Callback.

Lemma handler_S (fuel : nat) (s : Loop) :
  handler Post clock pickStop c (S fuel) s
  = match select pickStop (iter s) (self s) with
    | SelStop => (s, Stopped)
    | SelBlock => (s, Waiting)
    | SelMsg data w =>
        match handlerRequest Post c (iter s) w data with
        | Crash r =>
            handler Post clock pickStop c fuel
              (mkLoop w (sink s ++ [sendReturn w (IError (Some (panicError r)))])
                      (S (iter s)) (S (started s)))
        | Fail err =>
            handler Post clock pickStop c fuel
              (mkLoop (fst (Inc c (clock (iter s)) w))
                      (sink s ++ [sendReturn (fst (Inc c (clock (iter s)) w))
                                             (IError (Some (failError err)))])
                      (S (iter s)) (started s))
        | Ok res =>
            handler Post clock pickStop c fuel
              (mkLoop (Reset w)
                      (sink s ++ [sendReturn (Reset w) (IResponse (Some (Response.mk res)))])
                      (S (iter s)) (started s))
        end
    end.
Proof. reflexivity. Qed.

Lemma select_msg (k : nat) (w w' : Worker) (data : bytes) :
  select pickStop k w = SelMsg data w' ->
  w' = setQueue (List.tl (messageQueue w)) w
  /\ messageQueue w = data :: messageQueue w'.
Proof.
  unfold select. destruct (messageQueue w) as [|d rest] eqn:Hq.
  - destruct (stop w); discriminate.
  - destruct (stop w); [| |destruct (pickStop k); [discriminate|]];
      intros [= <- <-]; cbn; auto.
Qed.

Lemma select_open (k : nat) (w : Worker) :
  stop w <> ChanClosed ->
  select pickStop k w
  = match messageQueue w with
    | [] => SelBlock
    | data :: rest => SelMsg data (setQueue rest w)
    end.
Proof.
  intros Hstop; unfold select.
  destruct (messageQueue w), (stop w); congruence.
Qed.

(** Whatever the loop does, it only appends to the channel, and what it
    appends are well-formed envelopes of its own endpoint. *)
Lemma handler_sink (fuel : nat) :
  forall s : Loop,
    point (self (fst (handler Post clock pickStop c fuel s))) = point (self s)
    /\ exists new : list Data.t,
        sink (fst (handler Post clock pickStop c fuel s)) = sink s ++ new
        /\ Forall (wellFormed (point (self s))) new.
Proof.
  induction fuel as [|fuel IH]; intros s.
  - cbn. split; [reflexivity|]. exists []. rewrite app_nil_r. auto.
  - rewrite handler_S.
    destruct (select pickStop (iter s) (self s)) as [data w| |] eqn:Hsel;
      try (cbn; split; [reflexivity|]; exists []; rewrite app_nil_r; auto).
    apply select_msg in Hsel as [-> _].
    set (w := setQueue _ (self s)).
    assert (Hpt : point w = point (self s)) by reflexivity.
    destruct (handlerRequest Post c (iter s) w data) as [res|err|r];
      match goal with
      | |- context [handler _ _ _ _ fuel ?s'] =>
          destruct (IH s') as (Hp & new & Hs & Hwf); cbn [self sink] in Hp, Hs, Hwf;
          rewrite Hp, Hs, <- app_assoc
      end.
    + split; [reflexivity|]. eexists; split; [reflexivity|].
      constructor; [|exact Hwf].
      rewrite <- Hpt. change (point w) with (point (Reset w)).
      apply sendReturn_wellFormed; discriminate.
    + destruct (Inc_frame c (clock (iter s)) w) as (_ & Hpi & _).
      split; [congruence|]. eexists; split; [reflexivity|].
      rewrite Hpi, Hpt in Hwf. constructor; [|exact Hwf].
      rewrite <- Hpt, <- Hpi. apply sendReturn_wellFormed; discriminate.
    + split; [reflexivity|]. eexists; split; [reflexivity|].
      constructor; [|exact Hwf].
      rewrite <- Hpt. apply sendReturn_wellFormed; discriminate.
Qed.

(** A worker whose stop signal is not given takes every queued message, one
    envelope each, and then waits. *)
Lemma handler_drains (fuel : nat) :
  forall s : Loop,
    stop (self s) <> ChanClosed ->
    (length (messageQueue (self s)) < fuel)%nat ->
    snd (handler Post clock pickStop c fuel s) = Waiting
    /\ messageQueue (self (fst (handler Post clock pickStop c fuel s))) = []
    /\ iter (fst (handler Post clock pickStop c fuel s))
       = (iter s + length (messageQueue (self s)))%nat
    /\ length (sink (fst (handler Post clock pickStop c fuel s)))
       = (length (sink s) + length (messageQueue (self s)))%nat.
Proof.
  induction fuel as [|fuel IH]; intros s Hstop Hlen; [lia|].
  rewrite handler_S, select_open by exact Hstop.
  destruct (messageQueue (self s)) as [|data rest] eqn:Hq.
  - cbn. rewrite Hq. cbn. repeat split; lia.
  - cbn [length] in Hlen.
    set (w := setQueue rest (self s)).
    destruct (Inc_frame c (clock (iter s)) w) as (_ & _ & Hqi & Hsi).
    destruct (handlerRequest Post c (iter s) w data) as [res|err|r];
      match goal with
      | |- context [handler _ _ _ _ fuel ?s'] =>
          destruct (IH s') as (Hst & Hqe & Hit & Hsk);
          [ cbn [self]; first [rewrite Hsi; exact Hstop | exact Hstop]
          | cbn [self]; first [rewrite Hqi; cbn; lia | cbn; lia]
          | cbn [self sink iter] in Hit, Hsk;
            try rewrite Hqi in Hit; try rewrite Hqi in Hsk;
            cbn [messageQueue Reset setBlockedUntil setErrorTimestamps setQueue w] in Hit, Hsk;
            rewrite length_app in Hsk; cbn [length] in *;
            repeat split; [exact Hst | exact Hqe | lia | lia] ]
      end.
Qed.

End WorkerLoopFacts.

(** C8. Every envelope a worker's loop sends carries the worker's endpoint and
    exactly one of the two pointer fields: [Success] with a response and no
    error, or not [Success] with an error and no response. *)
Theorem handler_envelopes_wellFormed :
  forall (Post : nat -> string -> bytes -> Outcome) (clock : nat -> Time)
         (pickStop : nat -> bool) (c : Callback) (fuel : nat) (s : Loop),
  exists new : list Data.t,
    sink (fst (handler Post clock pickStop c fuel s)) = sink s ++ new
    /\ Forall (wellFormed (point (self s))) new.
Proof.
  intros Post clock pickStop c fuel s.
  destruct (handler_sink Post clock pickStop c fuel s) as (_ & new & Hs & Hwf).
  exists new; auto.
Qed.

(** C4. When the request for a message panics with [r], the loop sends the
    envelope of its endpoint with no response and the error
    [{0, "[PANIC] " ++ r, true}], and a new loop goes on with the same worker,
    whose queue is what was behind the lost message.  Unless the stop signal
    was given, the new loop takes every message still queued, one envelope
    each, and then waits. *)
Theorem handler_recovers :
  forall (Post : nat -> string -> bytes -> Outcome) (clock : nat -> Time)
         (pickStop : nat -> bool) (c : Callback) (s : Loop)
         (data : bytes) (w : Worker) (r : string) (fuel : nat),
    select pickStop (iter s) (self s) = SelMsg data w ->
    handlerRequest Post c (iter s) w data = Crash r ->
    let envelope :=
      Data.mk (point (self s)) false None
              (Some (Error.mk 0 (String.append "[PANIC] " r) true)) in
    let restarted := mkLoop w (sink s ++ [envelope]) (S (iter s)) (S (started s)) in
    let final := handler Post clock pickStop c (S fuel) s in
    messageQueue (self s) = data :: messageQueue w
    /\ final = handler Post clock pickStop c fuel restarted
    /\ (exists more : list Data.t, sink (fst final) = sink s ++ envelope :: more)
    /\ (stop (self s) <> ChanClosed ->
        (length (messageQueue w) < fuel)%nat ->
        snd final = Waiting
        /\ messageQueue (self (fst final)) = []
        /\ length (sink (fst final))
           = (length (sink s) + 1 + length (messageQueue w))%nat).
Proof.
  intros Post clock pickStop c s data w r fuel Hsel Hreq envelope restarted final.
  assert (Hrun : final = handler Post clock pickStop c fuel restarted).
  { subst final. rewrite handler_S, Hsel, Hreq.
    apply select_msg in Hsel as [-> _]. reflexivity. }
  pose proof (select_msg pickStop _ _ _ _ Hsel) as [Hw Hq].
  split; [exact Hq|]. split; [exact Hrun|]. split.
  - destruct (handler_sink Post clock pickStop c fuel restarted) as (_ & more & Hs & _).
    exists more. rewrite Hrun, Hs. subst restarted; cbn. rewrite <- app_assoc. reflexivity.
  - intros Hstop Hlen.
    destruct (handler_drains Post clock pickStop c fuel restarted) as (Hst & Hqe & _ & Hsk).
    + subst restarted; cbn. rewrite Hw. exact Hstop.
    + exact Hlen.
    + rewrite Hrun. repeat split; [exact Hst | exact Hqe |].
      rewrite Hsk. subst restarted; cbn. rewrite length_app. cbn. lia.
Qed.

(** ** Dispatchers built by [New] *)

Lemma New_three : New threeOptions = Return three.
Proof. reflexivity. Qed.

Lemma New_noEndpoints : New (mkOptions "" "" "" [] 0 0 0) = Return noEndpoints.
Proof. reflexivity. Qed.

(** C1. [Emit] never returns an error: it drops the result of [roundRobin].
    With no endpoint [roundRobin] returns the error and [Emit] returns nil;
    the same with the only endpoint blocked. *)
Theorem Emit_never_reports :
  (forall (now : nat -> Time) (c : Callback) (data : bytes) (e : string),
      snd (Emit now c data) <> Return (Some e))
  /\ snd (roundRobin (fun _ => 1) noEndpoints []) = Return (Some errAllBlocked)
  /\ snd (Emit (fun _ => 1) noEndpoints []) = Return None
  /\ (let blocked :=
        setEndPoints [mkWorker 0 "a" [] [] 10 ChanNil] noEndpoints in
      snd (roundRobin (fun _ => 1) blocked []) = Return (Some errAllBlocked)
      /\ Emit (fun _ => 1) blocked [] = (setRoundRobinIndex 1 blocked, Return None)).
Proof.
  split; [|repeat split].
  intros now c data e. unfold Emit.
  destruct (String.eqb _ _); [|destruct (String.eqb _ _); cbn; discriminate].
  destruct (roundRobin now c data) as [c' [r|msg]]; cbn; discriminate.
Qed.

(** C10. The index is negative once the cursor has wrapped: the cursor holds
    [minInt32] after [2^31] selections, the index of the next one among three
    endpoints is [-2], and [roundRobin] panics on [c.endPoints[-2]]. *)
Theorem roundRobin_index_after_wrap :
  atomicAdd maxInt32 1 = minInt32
  /\ candidateIndex minInt32 3 = -2
  /\ snd (roundRobin (fun _ => 1) (setRoundRobinIndex minInt32 three) [])
     = Panic "index out of range"
  /\ snd (Emit (fun _ => 1) (setRoundRobinIndex minInt32 three) [])
     = Panic "index out of range"
  /\ (forall (v : Z) (len : nat),
         minInt32 <= v < 0 ->
         Z.rem v (Z.of_nat len) <> 0 ->
         candidateIndex v len < 0).
Proof.
  repeat split.
  intros v len Hv Hrem. rewrite candidateIndex_rem by (unfold maxInt32, minInt32 in *; lia).
  destruct (Z.eq_dec (Z.of_nat len) 0) as [E|Hlen].
  - rewrite (Z.rem_0_r_ext v _ E). lia.
  - pose proof (Z.rem_nonpos v (Z.of_nat len) Hlen ltac:(lia)). lia.
Qed.

(** A wrapped cursor that is not a multiple of the number of endpoints gives
    a negative index. *)
Lemma candidateIndex_negative (v : Z) (len : nat) :
  minInt32 <= v < 0 -> Z.rem v (Z.of_nat len) <> 0 -> candidateIndex v len < 0.
Proof.
  intros Hv Hrem. rewrite candidateIndex_rem by (unfold maxInt32, minInt32 in *; lia).
  destruct (Z.eq_dec (Z.of_nat len) 0) as [E|Hlen].
  - rewrite (Z.rem_0_r_ext v _ E). lia.
  - pose proof (Z.rem_nonpos v (Z.of_nat len) Hlen ltac:(lia)). lia.
Qed.

(** C3. The order of the deliveries breaks where the cursor wraps.  On the
    three available endpoints of [three], with the cursor at the largest
    [int32], an emit still puts its payload in the queue of the endpoint at
    position [2147483647 mod 3 = 1], and it leaves the cursor at the least
    [int32].  The next emit is due at position [(2147483647 + 1) mod 3 = 2]:
    it computes the index -2 and panics, and no queue gets its payload.  So
    does every emit at a wrapped cursor that is not a multiple of the number
    of endpoints, whatever the workers are. *)
Theorem roundRobin_order_at_wrap :
  let now := fun _ : nat => 1 in
  let c := setRoundRobinIndex maxInt32 three in
  let c1 := mkCallback REST RoundRobin
                       [mkWorker 0 "a" [] [] zeroTime ChanNil;
                        mkWorker 1 "b" [[x31%byte]] [] zeroTime ChanNil;
                        mkWorker 2 "c" [] [] zeroTime ChanNil]
                       5 (Second * 5) (Second * 3) minInt32 [] 3 in
  Forall (fun w => After (now 0%nat) (blockedUntil w) = true) (endPoints c)
  /\ slotOf maxInt32 (length (endPoints c)) = 1%nat
  /\ Emit now c [x31%byte] = (c1, Return None)
  /\ slotOf (maxInt32 + 1) (length (endPoints c)) = 2%nat
  /\ candidateIndex (roundRobinIndex c1) (length (endPoints c1)) = -2
  /\ Emit now c1 [x32%byte]
     = (setRoundRobinIndex (minInt32 + 1) c1, Panic "index out of range")
  /\ (forall (clock : nat -> Time) (d : Callback) (data : bytes),
         deliveryMode d = RoundRobin ->
         endPoints d <> [] ->
         minInt32 <= roundRobinIndex d < 0 ->
         Z.rem (roundRobinIndex d) (Z.of_nat (length (endPoints d))) <> 0 ->
         Emit clock d data
         = (setRoundRobinIndex (roundRobinIndex d + 1) d, Panic "index out of range")).
Proof.
  cbv zeta. split; [repeat constructor|].
  do 5 (split; [vm_compute; reflexivity|]).
  intros clock d data Hmode Hne Hv Hrem.
  rewrite Emit_roundRobin by exact Hmode. unfold roundRobin.
  pose proof (candidateIndex_negative _ _ Hv Hrem) as Hneg.
  assert (Hlen : length (endPoints d) = S (pred (length (endPoints d)))).
  { destruct (endPoints d); [congruence|reflexivity]. }
  rewrite Hlen at 1. cbn [roundRobinFrom].
  apply Z.ltb_lt in Hneg. rewrite Hneg.
  rewrite atomicAdd_small by (unfold maxInt32, minInt32 in *; lia). reflexivity.
Qed.

(** The cursor values for which the index is in range. *)
Lemma candidateIndex_in_range (v : Z) (len : nat) :
  0 <= v <= maxInt32 -> (0 < len)%nat ->
  0 <= candidateIndex v len < Z.of_nat len.
Proof.
  intros Hv Hlen. rewrite candidateIndex_mod by assumption.
  apply Z.mod_pos_bound; lia.
Qed.

(** ** Instances *)



(** Two emits on the dispatcher [three], then a third: it goes to the
    endpoint at position [(0 + 2) mod 3]. *)
Lemma roundRobin_order_three :
  let nows := fun _ _ : nat => 1 in
  let datas : list bytes := [[]; []] in
  let data : bytes := [x78%byte] in
  let cn := fst (emitAll nows 0 three datas) in
  let slot := slotOf (roundRobinIndex three + Z.of_nat (length datas))
                     (length (endPoints three)) in
  (deliveryMode three = RoundRobin
   /\ endPoints three <> []
   /\ 0 <= roundRobinIndex three
   /\ roundRobinIndex three + Z.of_nat (length datas) < maxInt32
   /\ alwaysAvailable nows (endPoints three))
  /\ (snd (emitAll nows 0 three datas) = Return None
      /\ exists w : Worker,
          endPoints cn !! slot = Some w
          /\ Emit (nows (length datas)) cn data
             = (setEndPoints
                  (<[slot := setQueue (messageQueue w ++ [data]) w]> (endPoints cn))
                  (setRoundRobinIndex
                     (roundRobinIndex three + Z.of_nat (length datas) + 1) cn),
                Return None)).
Proof.
  intros nows datas data cn slot.
  assert (H1 : deliveryMode three = RoundRobin) by reflexivity.
  assert (H2 : endPoints three <> []) by discriminate.
  assert (H3 : 0 <= roundRobinIndex three) by zcmp.
  assert (H4 : roundRobinIndex three + Z.of_nat (length datas) < maxInt32) by zcmp.
  assert (H5 : alwaysAvailable nows (endPoints three))
    by (repeat constructor).
  split; [repeat split; assumption|].
  exact (proj1 roundRobin_order nows three datas data H1 H2 H3 H4 H5).
Defined.

(** A transport that panics on the first request and answers the next ones:
    of two queued messages the first yields the panic envelope, the second is
    still served. *)
Lemma handler_recovers_witness :
  let Post := fun (k : nat) (_ : string) (_ : bytes) =>
                match k with O => Crash "boom" | S _ => Ok [] end in
  let clock := fun _ : nat => 1 in
  let pickStop := fun _ : nat => false in
  let first : bytes := [x31%byte] in
  let second : bytes := [x32%byte] in
  let w := mkWorker 0 "a" [second] [] zeroTime ChanNil in
  let s := mkLoop (mkWorker 0 "a" [first; second] [] zeroTime ChanNil) [] 0 1 in
  let envelope := Data.mk "a" false None (Some (Error.mk 0 "[PANIC] boom" true)) in
  let final := handler Post clock pickStop three 3 s in
  (select pickStop (iter s) (self s) = SelMsg first w
   /\ handlerRequest Post three (iter s) w first = Crash "boom")
  /\ (messageQueue (self s) = first :: messageQueue w
      /\ final = handler Post clock pickStop three 2
                         (mkLoop w (sink s ++ [envelope]) (S (iter s)) (S (started s)))
      /\ (exists more : list Data.t, sink (fst final) = sink s ++ envelope :: more)
      /\ (stop (self s) <> ChanClosed ->
          (length (messageQueue w) < 2)%nat ->
          snd final = Waiting
          /\ messageQueue (self (fst final)) = []
          /\ length (sink (fst final))
             = (length (sink s) + 1 + length (messageQueue w))%nat)).
Proof.
  intros Post clock pickStop first second w s envelope final.
  assert (H1 : select pickStop (iter s) (self s) = SelMsg first w) by reflexivity.
  assert (H2 : handlerRequest Post three (iter s) w first = Crash "boom") by reflexivity.
  split; [split; assumption|].
  exact (handler_recovers Post clock pickStop three s first w "boom" 2 H1 H2).
Defined.

(** ** Membership changes *)

Lemma findFrom_absent (host : string) (l : list Worker) :
  forall i : Z, Forall (fun w => point w <> host) l -> findFrom i l host = -1.
Proof.
  induction l as [|w l IH]; intros i Hl; cbn; [reflexivity|].
  inversion Hl as [|? ? Hw Hl']; subst.
  destruct (String.eqb_spec (point w) host); [contradiction|]. apply IH, Hl'.
Qed.

Lemma findFrom_found (host : string) (pre : list Worker) :
  forall (i : Z) (w : Worker) (suf : list Worker),
    Forall (fun x => point x <> host) pre ->
    point w = host ->
    findFrom i (pre ++ w :: suf) host = i + Z.of_nat (length pre).
Proof.
  induction pre as [|x pre IH]; intros i w suf Hpre Hw; cbn [app findFrom length].
  - rewrite Hw, String.eqb_refl. cbn; lia.
  - inversion Hpre as [|? ? Hx Hpre']; subst.
    destruct (String.eqb_spec (point x) (point w)); [contradiction|].
    rewrite IH by auto. lia.
Qed.

(** The first worker of an endpoint, when there is one. *)
Lemma first_worker (host : string) (l : list Worker) :
  Forall (fun w => point w <> host) l
  \/ exists pre w suf,
      l = pre ++ w :: suf /\ point w = host /\ Forall (fun x => point x <> host) pre.
Proof.
  induction l as [|x l [IH|(pre & w & suf & -> & Hw & Hpre)]].
  - left; constructor.
  - destruct (String.eqb_spec (point x) host) as [Hx|Hx].
    + right. exists [], x, l. repeat split; [exact Hx|constructor].
    + left. constructor; assumption.
  - right. destruct (String.eqb_spec (point x) host) as [Hx|Hx].
    + exists [], x, (pre ++ w :: suf). repeat split; [exact Hx|constructor].
    + exists (x :: pre), w, suf. repeat split; [exact Hw|constructor; assumption].
Qed.

Lemma findFrom_present (host : string) (l : list Worker) (w : Worker) :
  w ∈ l -> point w = host -> findFrom 0 l host <> -1.
Proof.
  intros Hin Hw.
  destruct (first_worker host l) as [Hno|(pre & x & suf & -> & Hx & Hpre)].
  - rewrite Forall_forall in Hno. exfalso. exact (Hno w Hin Hw).
  - rewrite findFrom_found by assumption. lia.
Qed.

Lemma removeAt_middle (pre : list Worker) (w : Worker) (suf : list Worker) :
  removeAt (length pre) (pre ++ w :: suf) = pre ++ suf.
Proof.
  unfold removeAt.
  rewrite take_app_length.
  replace (S (length pre)) with (length (pre ++ [w])) by (rewrite length_app; cbn; lia).
  replace (pre ++ w :: suf) with ((pre ++ [w]) ++ suf) by (rewrite <- app_assoc; reflexivity).
  rewrite drop_app_length. reflexivity.
Qed.

(** [DeleteEndpoint] on an endpoint without a worker changes nothing. *)
Lemma DeleteEndpoint_absent (c : Callback) (host : string) :
  Forall (fun w => point w <> host) (endPoints c) ->
  DeleteEndpoint c host = Return c.
Proof.
  intros Hno. unfold DeleteEndpoint, findWorkerIndex.
  rewrite findFrom_absent by exact Hno. reflexivity.
Qed.

(** [DeleteEndpoint] on the first worker [w] of an endpoint: what [Close]
    does to [w] decides. *)
Lemma DeleteEndpoint_present (c : Callback) (host : string)
      (pre : list Worker) (w : Worker) (suf : list Worker) :
  endPoints c = pre ++ w :: suf ->
  point w = host ->
  Forall (fun x => point x <> host) pre ->
  DeleteEndpoint c host
  = match Close w with
    | Return _ => Return (setEndPoints (pre ++ suf) c)
    | Panic msg => Panic msg
    end.
Proof.
  intros Hl Hw Hpre. unfold DeleteEndpoint, findWorkerIndex.
  rewrite Hl, findFrom_found by assumption.
  replace (0 + Z.of_nat (length pre) =? -1) with false by (symmetry; apply Z.eqb_neq; lia).
  replace (Z.to_nat (0 + Z.of_nat (length pre))) with (length pre) by lia.
  rewrite list_lookup_middle by reflexivity.
  destruct (Close w); cbn; [|reflexivity].
  rewrite removeAt_middle. reflexivity.
Qed.

(** With its stop channel made and open, the worker is removed and the others
    stay in place. *)
Lemma DeleteEndpoint_open (c : Callback) (host : string)
      (pre : list Worker) (w : Worker) (suf : list Worker) :
  endPoints c = pre ++ w :: suf ->
  point w = host ->
  Forall (fun x => point x <> host) pre ->
  stop w = ChanOpen ->
  DeleteEndpoint c host = Return (setEndPoints (pre ++ suf) c).
Proof.
  intros Hl Hw Hpre Hstop.
  rewrite (DeleteEndpoint_present c host pre w suf) by assumption.
  unfold Close; rewrite Hstop; reflexivity.
Qed.

(** With the nil stop channel [NewWorker] leaves, the call panics. *)
Lemma DeleteEndpoint_nil (c : Callback) (host : string)
      (pre : list Worker) (w : Worker) (suf : list Worker) :
  endPoints c = pre ++ w :: suf ->
  point w = host ->
  Forall (fun x => point x <> host) pre ->
  stop w = ChanNil ->
  DeleteEndpoint c host = Panic "close of nil channel".
Proof.
  intros Hl Hw Hpre Hstop.
  rewrite (DeleteEndpoint_present c host pre w suf) by assumption.
  unfold Close; rewrite Hstop; reflexivity.
Qed.

Lemma retained_all (hosts : list string) (l : list Worker) :
  Forall (fun w => point w ∈ hostSet hosts) l -> retained hosts l = l.
Proof.
  unfold retained. induction 1 as [|w l Hw _ IH]; [reflexivity|].
  rewrite filter_cons_True by exact Hw. rewrite IH. reflexivity.
Qed.

Lemma retained_snoc (hosts : list string) (pre : list Worker) (w : Worker) :
  retained hosts (pre ++ [w])
  = retained hosts pre ++ (if decide (point w ∈ hostSet hosts) then [w] else []).
Proof.
  unfold retained. rewrite filter_app. reflexivity.
Qed.

Lemma syncRemove_snoc (hosts : list string) (pre : list Worker) (w : Worker)
      (suf : list Worker) :
  syncRemove (hostSet hosts) (length (pre ++ [w])) ((pre ++ [w]) ++ suf)
  = if decide (point w ∈ hostSet hosts)
    then syncRemove (hostSet hosts) (length pre) (pre ++ w :: suf)
    else match Close w with
         | Return _ => syncRemove (hostSet hosts) (length pre) (pre ++ suf)
         | Panic msg => Panic msg
         end.
Proof.
  rewrite length_app, Nat.add_1_r, <- app_assoc. cbn [syncRemove app].
  rewrite list_lookup_middle by reflexivity.
  destruct (decide _); [reflexivity|].
  destruct (Close w); cbn; [|reflexivity].
  rewrite removeAt_middle. reflexivity.
Qed.

(** The removal loop, when it returns, has kept the workers of the new hosts
    and no other, in their order. *)
Lemma syncRemove_result (hosts : list string) (pre : list Worker) :
  forall suf l : list Worker,
    syncRemove (hostSet hosts) (length pre) (pre ++ suf) = Return l ->
    l = retained hosts pre ++ suf.
Proof.
  induction pre as [|w pre IH] using rev_ind; intros suf l Hrun.
  - cbn in Hrun. injection Hrun as <-. reflexivity.
  - rewrite syncRemove_snoc in Hrun. rewrite retained_snoc, <- app_assoc.
    destruct (decide (point w ∈ hostSet hosts)).
    + apply IH in Hrun. exact Hrun.
    + destruct (Close w); [|discriminate]. apply IH in Hrun. exact Hrun.
Qed.

(** It returns when every worker to remove has an open stop channel. *)
Lemma syncRemove_open (hosts : list string) (pre : list Worker) :
  forall suf : list Worker,
    Forall (fun w => point w ∉ hostSet hosts -> stop w = ChanOpen) pre ->
    syncRemove (hostSet hosts) (length pre) (pre ++ suf)
    = Return (retained hosts pre ++ suf).
Proof.
  induction pre as [|w pre IH] using rev_ind; intros suf Hopen; [reflexivity|].
  apply Forall_app in Hopen as [Hpre Hw]. inversion Hw as [|? ? Hstop _]; subst.
  rewrite syncRemove_snoc, retained_snoc, <- app_assoc.
  destruct (decide (point w ∈ hostSet hosts)) as [Hin|Hout].
  - apply IH, Hpre.
  - unfold Close. rewrite (Hstop Hout). apply IH, Hpre.
Qed.

(** [NewWorker], by the capacity it asks [make] for. *)
Lemma NewWorker_inRange (c : Callback) (pt : string) :
  0 <= retryLimit c <= maxSliceCap ->
  NewWorker c pt
  = Return (mkWorker (nextAddr c) pt [] [] zeroTime ChanNil, setNextAddr (S (nextAddr c)) c).
Proof.
  intros [Hlo Hhi]. unfold NewWorker.
  replace (retryLimit c <? 0) with false by (symmetry; apply Z.ltb_ge; exact Hlo).
  replace (maxSliceCap <? retryLimit c) with false by (symmetry; apply Z.ltb_ge; exact Hhi).
  reflexivity.
Qed.

Lemma NewWorker_outOfRange (c : Callback) (pt : string) :
  retryLimit c < 0 \/ maxSliceCap < retryLimit c ->
  NewWorker c pt = Panic "makeslice: cap out of range".
Proof.
  intros H. unfold NewWorker.
  replace ((retryLimit c <? 0) || (maxSliceCap <? retryLimit c)) with true; [reflexivity|].
  symmetry; apply orb_true_iff. destruct H as [H|H]; [left|right]; apply Z.ltb_lt; exact H.
Qed.

Lemma syncAdd_noop (hosts : list string) (c : Callback) :
  Forall (fun host => findWorkerIndex c host <> -1) hosts ->
  syncAdd hosts c = Return c.
Proof.
  induction 1 as [|host hosts Hhost _ IH]; cbn; [reflexivity|].
  apply Z.eqb_neq in Hhost. rewrite Hhost. exact IH.
Qed.

(** The loop that adds, when it returns: the workers it was given, then new
    ones, each of a new host and with nothing but its endpoint set; every new
    host has a worker; only the worker list and the allocator change. *)
Lemma syncAdd_result (hosts : list string) :
  forall c c' : Callback,
    syncAdd hosts c = Return c' ->
    (exists news : list Worker,
        endPoints c' = endPoints c ++ news
        /\ Forall (fun w => point w ∈ hosts
                            /\ w = mkWorker (addr w) (point w) [] [] zeroTime ChanNil) news)
    /\ Forall (fun host => exists w, w ∈ endPoints c' /\ point w = host) hosts
    /\ c' = setNextAddr (nextAddr c') (setEndPoints (endPoints c') c).
Proof.
  induction hosts as [|host hosts IH]; intros c c' Hrun; cbn in Hrun.
  - injection Hrun as <-. split; [exists []; rewrite app_nil_r; auto|].
    split; [constructor|]. destruct c; reflexivity.
  - destruct (findWorkerIndex c host =? -1) eqn:Hfind.
    + unfold NewWorker in Hrun. destruct (_ || _); [discriminate|].
      cbn in Hrun. apply IH in Hrun as ((news & Heq & Hnews) & Hall & Hframe).
      cbn in Heq. split; [|split].
      * eexists (_ :: news). rewrite Heq, <- app_assoc. split; [reflexivity|].
        constructor.
        -- cbn. split; [apply elem_of_cons; left; reflexivity | reflexivity].
        -- eapply Forall_impl; [exact Hnews|]. cbn. intros w [Hw Hfresh].
           split; [apply elem_of_cons; right; exact Hw | exact Hfresh].
      * constructor; [|exact Hall].
        exists (mkWorker (nextAddr c) host [] [] zeroTime ChanNil).
        split; [|reflexivity].
        rewrite Heq. apply elem_of_app; left. apply elem_of_app; right.
        apply list_elem_of_singleton. reflexivity.
      * rewrite Hframe at 1. reflexivity.
    + apply IH in Hrun as ((news & Heq & Hnews) & Hall & Hframe).
      split; [|split].
      * exists news. split; [exact Heq|].
        eapply Forall_impl; [exact Hnews|]. cbn. intros w [Hw Hfresh].
        split; [apply elem_of_cons; right; exact Hw | exact Hfresh].
      * constructor; [|exact Hall].
        apply Z.eqb_neq in Hfind. unfold findWorkerIndex in Hfind.
        destruct (first_worker host (endPoints c)) as [Hno|(pre & w & suf & Hl & Hw & _)].
        -- rewrite findFrom_absent in Hfind by exact Hno. congruence.
        -- exists w. split; [|exact Hw]. rewrite Heq, Hl.
           apply elem_of_app; left. apply elem_of_app; right.
           apply elem_of_cons; left; reflexivity.
      * exact Hframe.
Qed.

Lemma setEndPoints_same (c : Callback) : setEndPoints (endPoints c) c = c.
Proof. destruct c; reflexivity. Qed.

Lemma syncRemove_all_result (hosts : list string) (l l' : list Worker) :
  syncRemove (hostSet hosts) (length l) l = Return l' -> l' = retained hosts l.
Proof.
  pose proof (syncRemove_result hosts l [] l') as H.
  rewrite !app_nil_r in H. exact H.
Qed.

Lemma syncRemove_all_open (hosts : list string) (l : list Worker) :
  Forall (fun w => point w ∉ hostSet hosts -> stop w = ChanOpen) l ->
  syncRemove (hostSet hosts) (length l) l = Return (retained hosts l).
Proof.
  pose proof (syncRemove_open hosts l []) as H.
  rewrite !app_nil_r in H. exact H.
Qed.

Lemma syncAdd_returns (hosts : list string) :
  forall c : Callback,
    0 <= retryLimit c <= maxSliceCap ->
    exists c' : Callback, syncAdd hosts c = Return c'.
Proof.
  induction hosts as [|host hosts IH]; intros c Hlim; cbn; [eauto|].
  destruct (findWorkerIndex c host =? -1); [|apply IH; exact Hlim].
  rewrite NewWorker_inRange by exact Hlim.
  cbn. apply IH. exact Hlim.
Qed.

(** When [SyncEndPoint] returns, the worker list is the workers of the new
    hosts it had, in their order, followed by new workers, and every new host
    has a worker. *)
Lemma SyncEndPoint_reconciles (c c' : Callback) (hosts : list string) :
  SyncEndPoint c hosts = Return c' ->
  (exists news : list Worker,
      endPoints c' = retained hosts (endPoints c) ++ news
      /\ Forall (fun w => point w ∈ hosts
                          /\ w = mkWorker (addr w) (point w) [] [] zeroTime ChanNil) news)
  /\ Forall (fun w => point w ∈ hostSet hosts) (endPoints c')
  /\ Forall (fun host => exists w, w ∈ endPoints c' /\ point w = host) hosts.
Proof.
  unfold SyncEndPoint. intros Hrun.
  destruct (syncRemove _ _ _) as [l|msg] eqn:Hrem; [|discriminate]. cbn in Hrun.
  apply syncRemove_all_result in Hrem. subst l.
  apply syncAdd_result in Hrun as ((news & Heq & Hnews) & Hall & _).
  cbn in Heq. split; [exists news; auto|]. split; [|exact Hall].
  rewrite Heq. apply Forall_app; split.
  - apply Forall_forall. intros w Hw. apply list_elem_of_filter in Hw as [Hw _]. exact Hw.
  - eapply Forall_impl; [exact Hnews|]. cbn. intros w [Hw _].
    apply elem_of_list_to_set. exact Hw.
Qed.

(** It returns when the workers to remove have an open stop channel and the
    retry limit is a capacity [make] accepts. *)
Lemma SyncEndPoint_returns (c : Callback) (hosts : list string) :
  Forall (fun w => point w ∉ hostSet hosts -> stop w = ChanOpen) (endPoints c) ->
  0 <= retryLimit c <= maxSliceCap ->
  exists c' : Callback, SyncEndPoint c hosts = Return c'.
Proof.
  intros Hopen Hlim. unfold SyncEndPoint.
  rewrite syncRemove_all_open by exact Hopen. cbn [go_bind].
  apply syncAdd_returns. exact Hlim.
Qed.

(** A second [SyncEndPoint] with the same hosts returns the dispatcher the
    first returned: same workers at the same addresses, nothing allocated. *)
Lemma SyncEndPoint_idempotent (c c' : Callback) (hosts : list string) :
  SyncEndPoint c hosts = Return c' ->
  SyncEndPoint c' hosts = Return c'.
Proof.
  intros Hrun. apply SyncEndPoint_reconciles in Hrun as (_ & Hin & Hall).
  unfold SyncEndPoint.
  rewrite syncRemove_all_open.
  - rewrite retained_all by exact Hin. cbn [go_bind].
    rewrite setEndPoints_same. apply syncAdd_noop.
    eapply Forall_impl; [exact Hall|]. cbn. intros host (w & Hw & Hpt).
    eapply findFrom_present; eassumption.
  - eapply Forall_impl; [exact Hin|]. cbn. intros w Hw Hout. contradiction.
Qed.

(** *** The stop channel of the workers the package creates *)

Lemma New_workers (opt : Options) (c : Callback) :
  New opt = Return c ->
  neverMade c
  /\ Forall (fun host => exists w, w ∈ endPoints c /\ point w = host) (EndPoints opt).
Proof.
  unfold New. intros Hrun.
  apply SyncEndPoint_reconciles in Hrun as ((news & Heq & Hnews) & _ & Hall).
  assert (E : EndPoints (defaultOptions opt) = EndPoints opt)
    by apply defaultOptions_endPoints.
  rewrite E in *. split; [|exact Hall].
  unfold neverMade. rewrite Heq. cbn [endPoints retained app].
  eapply Forall_impl; [exact Hnews|]. cbn. intros w [_ ->]. reflexivity.
Qed.

Lemma AddEndpoint_neverMade (c c' : Callback) (host : string) :
  neverMade c -> AddEndpoint c host = Return c' -> neverMade c'.
Proof.
  unfold AddEndpoint, neverMade, NewWorker. intros Hc Hrun.
  destruct (negb _); [congruence|].
  destruct (_ || _); [discriminate|]. cbn in Hrun.
  injection Hrun as <-. cbn. apply Forall_app; split; [exact Hc|].
  repeat constructor.
Qed.

Lemma SyncEndPoint_neverMade (c c' : Callback) (hosts : list string) :
  neverMade c -> SyncEndPoint c hosts = Return c' -> neverMade c'.
Proof.
  unfold neverMade. intros Hc Hrun.
  apply SyncEndPoint_reconciles in Hrun as ((news & Heq & Hnews) & _).
  rewrite Heq. apply Forall_app; split.
  - apply Forall_forall. intros w Hw. apply list_elem_of_filter in Hw as [_ Hw].
    rewrite Forall_forall in Hc. auto.
  - eapply Forall_impl; [exact Hnews|]. cbn. intros w [_ ->]. reflexivity.
Qed.

(** With nil stop channels, [DeleteEndpoint] panics on every endpoint that
    has a worker. *)
Lemma DeleteEndpoint_neverMade (c : Callback) (host : string) (w : Worker) :
  neverMade c -> w ∈ endPoints c -> point w = host ->
  DeleteEndpoint c host = Panic "close of nil channel".
Proof.
  unfold neverMade. intros Hc Hin Hpt.
  destruct (first_worker host (endPoints c)) as [Hno|(pre & x & suf & Hl & Hx & Hpre)].
  - rewrite Forall_forall in Hno. exfalso. exact (Hno w Hin Hpt).
  - apply (DeleteEndpoint_nil c host pre x suf); auto.
    rewrite Forall_forall in Hc. apply Hc. rewrite Hl.
    apply elem_of_app; right. apply elem_of_cons; left; reflexivity.
Qed.

(** ... and the removal loop of [SyncEndPoint] panics as soon as one worker
    is to be removed. *)
Lemma syncRemove_neverMade (hosts : list string) (pre : list Worker) :
  forall suf : list Worker,
    Forall (fun w => stop w = ChanNil) pre ->
    Exists (fun w => point w ∉ hostSet hosts) pre ->
    syncRemove (hostSet hosts) (length pre) (pre ++ suf) = Panic "close of nil channel".
Proof.
  induction pre as [|w pre IH] using rev_ind; intros suf Hnil Hex.
  - inversion Hex.
  - apply Forall_app in Hnil as [Hpre Hw]. inversion Hw as [|? ? Hstop _]; subst.
    rewrite syncRemove_snoc.
    destruct (decide (point w ∈ hostSet hosts)) as [Hin|Hout].
    + apply IH; [exact Hpre|].
      apply Exists_app in Hex as [Hex|Hex]; [exact Hex|].
      inversion Hex as [? ? Hout|? ? Hnone]; subst; [contradiction|inversion Hnone].
    + unfold Close. rewrite Hstop. reflexivity.
Qed.

Lemma SyncEndPoint_neverMade_panics (c : Callback) (hosts : list string) (w : Worker) :
  neverMade c -> w ∈ endPoints c -> point w ∉ hosts ->
  SyncEndPoint c hosts = Panic "close of nil channel".
Proof.
  intros Hc Hin Hout. unfold SyncEndPoint.
  pose proof (syncRemove_neverMade hosts (endPoints c) [] Hc) as H.
  rewrite app_nil_r in H. rewrite H; [reflexivity|].
  apply Exists_exists. exists w. split; [exact Hin|].
  intros Hset. apply Hout. apply elem_of_list_to_set in Hset. exact Hset.
Qed.

(** C7. [DeleteEndpoint] panics on an endpoint that [New] registered: the
    worker's [stop] channel is nil, and [close] of a nil channel panics.  The
    worker is neither closed nor removed. *)
Theorem DeleteEndpoint_panics :
  (forall (opt : Options) (c : Callback) (host : string),
      New opt = Return c ->
      host ∈ EndPoints opt ->
      DeleteEndpoint c host = Panic "close of nil channel")
  /\ New threeOptions = Return three
  /\ findWorkerIndex three "b" = 1
  /\ DeleteEndpoint three "b" = Panic "close of nil channel".
Proof.
  split; [|repeat split].
  intros opt c host Hnew Hhost.
  apply New_workers in Hnew as [Hnil Hall].
  rewrite Forall_forall in Hall. destruct (Hall host Hhost) as (w & Hw & Hpt).
  exact (DeleteEndpoint_neverMade c host w Hnil Hw Hpt).
Qed.

(** C6. [SyncEndPoint] panics when the new set leaves out an endpoint that
    [New] registered: the worker to remove cannot be closed. *)
Theorem SyncEndPoint_panics :
  (forall (opt : Options) (c : Callback) (hosts : list string) (host : string),
      New opt = Return c ->
      host ∈ EndPoints opt ->
      host ∉ hosts ->
      SyncEndPoint c hosts = Panic "close of nil channel")
  /\ New threeOptions = Return three
  /\ SyncEndPoint three ["a"; "b"] = Panic "close of nil channel".
Proof.
  split; [|split; [reflexivity | vm_compute; reflexivity]].
  intros opt c hosts host Hnew Hhost Hout.
  apply New_workers in Hnew as [Hnil Hall].
  rewrite Forall_forall in Hall. destruct (Hall host Hhost) as (w & Hw & Hpt).
  apply (SyncEndPoint_neverMade_panics c hosts w Hnil Hw). rewrite Hpt. exact Hout.
Qed.

(** * Further properties *)

(** ** Looking an endpoint up *)

Lemma findWorkerIndex_absent_iff (c : Callback) (host : string) :
  findWorkerIndex c host = -1 <-> host ∉ points (endPoints c).
Proof.
  unfold findWorkerIndex, points.
  destruct (first_worker host (endPoints c)) as [Hno|(pre & w & suf & Hl & Hw & Hpre)].
  - rewrite findFrom_absent by exact Hno. split; [intros _|reflexivity].
    intros Hin. apply list_elem_of_fmap in Hin as (w & Hw & Hin).
    rewrite Forall_forall in Hno. exact (Hno w Hin (eq_sym Hw)).
  - rewrite Hl, findFrom_found by assumption. split; [lia|].
    intros Hout. exfalso. apply Hout. rewrite fmap_app, fmap_cons, Hw.
    apply elem_of_app; right. apply elem_of_cons; left; reflexivity.
Qed.

(** X1. [findWorkerIndex] returns -1 exactly when no worker has the
    endpoint; otherwise it returns the position of the first worker that has
    it, an index of the list. *)
Theorem findWorkerIndex_first :
  forall (c : Callback) (host : string),
    (findWorkerIndex c host = -1 /\ host ∉ points (endPoints c))
    \/ (exists (pre : list Worker) (w : Worker) (suf : list Worker),
           endPoints c = pre ++ w :: suf
           /\ point w = host
           /\ (host ∉ points pre)
           /\ findWorkerIndex c host = Z.of_nat (length pre)
           /\ 0 <= findWorkerIndex c host < Z.of_nat (length (endPoints c))).
Proof.
  intros c host.
  destruct (first_worker host (endPoints c)) as [Hno|(pre & w & suf & Hl & Hw & Hpre)].
  - left. assert (H : host ∉ points (endPoints c)).
    { unfold points. intros Hin. apply list_elem_of_fmap in Hin as (w & Hw & Hin).
      rewrite Forall_forall in Hno. exact (Hno w Hin (eq_sym Hw)). }
    split; [apply findWorkerIndex_absent_iff|]; exact H.
  - right. exists pre, w, suf.
    assert (E : findWorkerIndex c host = Z.of_nat (length pre)).
    { unfold findWorkerIndex. rewrite Hl, findFrom_found by assumption. lia. }
    repeat split; try assumption.
    + unfold points. intros Hin. apply list_elem_of_fmap in Hin as (x & Hx & Hin).
      rewrite Forall_forall in Hpre. exact (Hpre x Hin (eq_sym Hx)).
    + lia.
    + rewrite E, Hl, length_app. cbn. lia.
Qed.

(** ** Adding an endpoint *)

(** X2. [AddEndpoint] leaves the dispatcher as it is when the endpoint has a
    worker; otherwise, when the retry limit is a capacity [make] accepts, it
    appends one new worker (empty queue, empty window, not blocked, at the
    next address) behind the others, and it panics when the retry limit is
    negative or above [maxSliceCap].  A second call with the same endpoint
    changes nothing. *)
Theorem AddEndpoint_cases :
  forall (c : Callback) (host : string),
    (host ∈ points (endPoints c) -> AddEndpoint c host = Return c)
    /\ (host ∉ points (endPoints c) -> 0 <= retryLimit c <= maxSliceCap ->
        AddEndpoint c host
        = Return (setEndPoints
                    (endPoints c ++ [mkWorker (nextAddr c) host [] [] zeroTime ChanNil])
                    (setNextAddr (S (nextAddr c)) c)))
    /\ (host ∉ points (endPoints c) ->
        retryLimit c < 0 \/ maxSliceCap < retryLimit c ->
        AddEndpoint c host = Panic "makeslice: cap out of range")
    /\ (forall c' : Callback,
           AddEndpoint c host = Return c' ->
           host ∈ points (endPoints c') /\ AddEndpoint c' host = Return c').
Proof.
  intros c host.
  assert (Hpresent : forall d : Callback,
             host ∈ points (endPoints d) -> AddEndpoint d host = Return d).
  { intros d Hin. unfold AddEndpoint.
    destruct (Z.eqb_spec (findWorkerIndex d host) (-1)) as [E|_]; [|reflexivity].
    apply findWorkerIndex_absent_iff in E. contradiction. }
  assert (Habsent : host ∉ points (endPoints c) ->
                    AddEndpoint c host
                    = do wc <~ NewWorker c host;
                      Return (setEndPoints (endPoints (snd wc) ++ [fst wc]) (snd wc))).
  { intros Hout. apply findWorkerIndex_absent_iff in Hout.
    unfold AddEndpoint. rewrite Hout. reflexivity. }
  split; [apply Hpresent|]. split; [|split].
  - intros Hout Hlim. rewrite Habsent, NewWorker_inRange by assumption. reflexivity.
  - intros Hout Hlim. rewrite Habsent, NewWorker_outOfRange by assumption. reflexivity.
  - intros c' Hrun.
    assert (Hin : host ∈ points (endPoints c')).
    { destruct (decide (host ∈ points (endPoints c))) as [Hin|Hout].
      - rewrite Hpresent in Hrun by exact Hin. injection Hrun as <-. exact Hin.
      - rewrite Habsent in Hrun by exact Hout. unfold NewWorker in Hrun.
        destruct (_ || _); [discriminate|]. injection Hrun as <-.
        unfold points; cbn. rewrite fmap_app.
        apply elem_of_app; right. apply list_elem_of_singleton. reflexivity. }
    split; [exact Hin | apply Hpresent; exact Hin].
Qed.

(** ** The result of [SyncEndPoint] and of [New] *)

Lemma points_app (l k : list Worker) : points (l ++ k) = points l ++ points k.
Proof. unfold points. apply fmap_app. Qed.

Lemma points_newWorkers (hosts : list string) :
  forall a : nat, points (newWorkers a hosts) = hosts.
Proof.
  induction hosts as [|host hosts IH]; intros a; [reflexivity|].
  unfold points in *. cbn. rewrite IH. reflexivity.
Qed.

Lemma length_newWorkers (hosts : list string) :
  forall a : nat, length (newWorkers a hosts) = length hosts.
Proof. induction hosts as [|host hosts IH]; intros a; cbn; [|rewrite IH]; reflexivity. Qed.

Lemma freshHosts_NoDup (hosts : list string) :
  forall present : list string,
    NoDup present -> NoDup (present ++ freshHosts present hosts).
Proof.
  induction hosts as [|host hosts IH]; intros present Hnd; cbn.
  - rewrite app_nil_r. exact Hnd.
  - destruct (decide (host ∈ present)) as [Hin|Hout]; [apply IH, Hnd|].
    replace (present ++ host :: freshHosts (present ++ [host]) hosts)
      with ((present ++ [host]) ++ freshHosts (present ++ [host]) hosts)
      by (rewrite <- app_assoc; reflexivity).
    apply IH. apply NoDup_app. split; [exact Hnd|]. split; [|apply NoDup_singleton].
    intros x Hx Hx'. apply list_elem_of_singleton in Hx'. subst. contradiction.
Qed.

Lemma freshHosts_covers (hosts : list string) :
  forall (present : list string) (h : string),
    h ∈ present ++ freshHosts present hosts <-> h ∈ present \/ h ∈ hosts.
Proof.
  induction hosts as [|host hosts IH]; intros present h; cbn.
  - rewrite app_nil_r. split; [auto|]. intros [H|H]; [exact H|inversion H].
  - destruct (decide (host ∈ present)) as [Hin|Hout].
    + rewrite IH, elem_of_cons. split; [tauto|].
      intros [H|[->|H]]; auto.
    + replace (present ++ host :: freshHosts (present ++ [host]) hosts)
        with ((present ++ [host]) ++ freshHosts (present ++ [host]) hosts)
        by (rewrite <- app_assoc; reflexivity).
      rewrite IH, elem_of_app, list_elem_of_singleton, elem_of_cons. tauto.
Qed.

(** The loop that adds, with a retry limit that [make] accepts. *)
Lemma syncAdd_exact (hosts : list string) :
  forall c : Callback,
    0 <= retryLimit c <= maxSliceCap ->
    syncAdd hosts c
    = Return (setEndPoints
                (endPoints c
                 ++ newWorkers (nextAddr c) (freshHosts (points (endPoints c)) hosts))
                (setNextAddr
                   (nextAddr c + length (freshHosts (points (endPoints c)) hosts)) c)).
Proof.
  induction hosts as [|host hosts IH]; intros c Hlim; cbn [syncAdd freshHosts].
  - cbn. rewrite app_nil_r, Nat.add_0_r. destruct c; reflexivity.
  - destruct (decide (host ∈ points (endPoints c))) as [Hin|Hout].
    + replace (findWorkerIndex c host =? -1) with false.
      * apply IH, Hlim.
      * symmetry. apply Z.eqb_neq. rewrite findWorkerIndex_absent_iff. tauto.
    + pose proof Hout as Hfind. apply findWorkerIndex_absent_iff in Hfind.
      rewrite Hfind. cbn [Z.eqb Pos.eqb]. rewrite NewWorker_inRange by exact Hlim.
      cbn [go_bind fst snd]. rewrite IH by exact Hlim.
      cbn [endPoints nextAddr setEndPoints setNextAddr].
      rewrite points_app. unfold points at 2. cbn [fmap list_fmap point].
      unfold setEndPoints, setNextAddr; cbn. rewrite <- app_assoc. cbn.
      do 2 f_equal. lia.
Qed.

(** With a retry limit [make] refuses it returns only when it has nothing to
    add. *)
Lemma syncAdd_outOfRange (hosts : list string) :
  forall c : Callback,
    retryLimit c < 0 \/ maxSliceCap < retryLimit c ->
    syncAdd hosts c
    = match freshHosts (points (endPoints c)) hosts with
      | [] => Return c
      | _ :: _ => Panic "makeslice: cap out of range"
      end.
Proof.
  induction hosts as [|host hosts IH]; intros c Hlim; cbn [syncAdd freshHosts];
    [reflexivity|].
  destruct (decide (host ∈ points (endPoints c))) as [Hin|Hout].
  - replace (findWorkerIndex c host =? -1) with false.
    + apply IH, Hlim.
    + symmetry. apply Z.eqb_neq. rewrite findWorkerIndex_absent_iff. tauto.
  - pose proof Hout as Hfind. apply findWorkerIndex_absent_iff in Hfind.
    rewrite Hfind. cbn [Z.eqb Pos.eqb]. rewrite NewWorker_outOfRange by exact Hlim.
    reflexivity.
Qed.

Lemma retryLimit_cases (c : Callback) :
  0 <= retryLimit c <= maxSliceCap \/ (retryLimit c < 0 \/ maxSliceCap < retryLimit c).
Proof. lia. Qed.

(** What [SyncEndPoint] returns, when it returns. *)
Lemma SyncEndPoint_shape (c c' : Callback) (hosts : list string) :
  SyncEndPoint c hosts = Return c' ->
  c' = setEndPoints
         (retained hosts (endPoints c)
          ++ newWorkers (nextAddr c)
                        (freshHosts (points (retained hosts (endPoints c))) hosts))
         (setNextAddr
            (nextAddr c
             + length (freshHosts (points (retained hosts (endPoints c))) hosts)) c).
Proof.
  unfold SyncEndPoint. intros Hrun.
  destruct (syncRemove _ _ _) as [l|msg] eqn:Hrem; [|discriminate]. cbn [go_bind] in Hrun.
  apply syncRemove_all_result in Hrem. subst l.
  destruct (retryLimit_cases c) as [Hpos|Hneg].
  - rewrite syncAdd_exact in Hrun by exact Hpos. injection Hrun as <-. reflexivity.
  - rewrite syncAdd_outOfRange in Hrun by exact Hneg. cbn [endPoints setEndPoints] in Hrun.
    destruct (freshHosts _ hosts); [|discriminate]. injection Hrun as <-.
    cbn. rewrite app_nil_r, Nat.add_0_r. destruct c; reflexivity.
Qed.

Lemma retained_points_in (hosts : list string) (l : list Worker) (h : string) :
  h ∈ points (retained hosts l) -> h ∈ hosts /\ h ∈ points l.
Proof.
  unfold points, retained. intros Hin.
  apply list_elem_of_fmap in Hin as (w & -> & Hw).
  apply list_elem_of_filter in Hw as [Hset Hw].
  split; [apply elem_of_list_to_set in Hset; exact Hset|].
  apply list_elem_of_fmap_2. exact Hw.
Qed.

Lemma retained_NoDup (hosts : list string) (l : list Worker) :
  NoDup (points l) -> NoDup (points (retained hosts l)).
Proof.
  unfold points, retained. induction l as [|w l IH]; intros Hnd; [constructor|].
  rewrite fmap_cons in Hnd. apply NoDup_cons in Hnd as [Hw Hnd].
  rewrite filter_cons. destruct (decide _); [|apply IH, Hnd].
  rewrite fmap_cons. apply NoDup_cons. split; [|apply IH, Hnd].
  intros Hin. apply Hw. apply list_elem_of_fmap in Hin as (x & Hx & Hin).
  apply list_elem_of_filter in Hin as [_ Hin]. rewrite Hx.
  apply list_elem_of_fmap_2. exact Hin.
Qed.

(** The removal loop panics at the last worker it has to remove and cannot
    close. *)
Lemma syncRemove_stuck (hosts : list string) (pre : list Worker) (w : Worker)
      (suf : list Worker) :
  point w ∉ hostSet hosts ->
  stop w <> ChanOpen ->
  Forall (fun x => point x ∉ hostSet hosts -> stop x = ChanOpen) suf ->
  forall tail : list Worker,
    syncRemove (hostSet hosts) (length (pre ++ w :: suf)) ((pre ++ w :: suf) ++ tail)
    = Panic (match stop w with
             | ChanClosed => "close of closed channel"
             | _ => "close of nil channel"
             end).
Proof.
  intros Hout Hstop.
  induction suf as [|x suf IH] using rev_ind; intros Hsuf tail.
  - rewrite syncRemove_snoc.
    destruct (decide (point w ∈ hostSet hosts)) as [Hin|_]; [contradiction|].
    unfold Close. destruct (stop w); [reflexivity|congruence|reflexivity].
  - apply Forall_app in Hsuf as [Hsuf Hx]. inversion Hx as [|? ? Hopen _]; subst.
    replace (pre ++ w :: suf ++ [x]) with ((pre ++ w :: suf) ++ [x])
      by (rewrite <- app_assoc; reflexivity).
    rewrite syncRemove_snoc.
    destruct (decide (point x ∈ hostSet hosts)) as [Hin|Hx'].
    + apply (IH Hsuf (x :: tail)).
    + unfold Close. rewrite (Hopen Hx'). apply (IH Hsuf tail).
Qed.

(** X3. [SyncEndPoint] by its cases.  When every worker it has to remove has
    an open stop channel, and the retry limit is a capacity [make] accepts or
    no new host lacks a worker, it returns the dispatcher with the workers of
    the new hosts kept in their order, followed by one new worker for each
    new host that had none, in the order of the first occurrences in the
    argument, at the next addresses; with a retry limit [make] refuses and a
    new host without a worker it panics in [make].  When a worker it has to
    remove has a nil or a closed stop channel, it panics in [close], at the
    last such worker of the list. *)
Theorem SyncEndPoint_exact :
  forall (c : Callback) (hosts : list string),
    let kept := retained hosts (endPoints c) in
    let fresh := freshHosts (points kept) hosts in
    (Forall (fun w => point w ∉ hostSet hosts -> stop w = ChanOpen) (endPoints c) ->
     (0 <= retryLimit c <= maxSliceCap \/ fresh = [] ->
      SyncEndPoint c hosts
      = Return (setEndPoints (kept ++ newWorkers (nextAddr c) fresh)
                             (setNextAddr (nextAddr c + length fresh) c)))
     /\ (retryLimit c < 0 \/ maxSliceCap < retryLimit c ->
         fresh <> [] ->
         SyncEndPoint c hosts = Panic "makeslice: cap out of range"))
    /\ (forall (pre : list Worker) (w : Worker) (suf : list Worker),
           endPoints c = pre ++ w :: suf ->
           point w ∉ hostSet hosts ->
           stop w <> ChanOpen ->
           Forall (fun x => point x ∉ hostSet hosts -> stop x = ChanOpen) suf ->
           SyncEndPoint c hosts
           = Panic (match stop w with
                    | ChanClosed => "close of closed channel"
                    | _ => "close of nil channel"
                    end)).
Proof.
  intros c hosts kept fresh. split.
  - intros Hopen.
    assert (Hrun : SyncEndPoint c hosts = syncAdd hosts (setEndPoints kept c)).
    { unfold SyncEndPoint. rewrite syncRemove_all_open by exact Hopen. reflexivity. }
    assert (Hout : retryLimit c < 0 \/ maxSliceCap < retryLimit c ->
                   SyncEndPoint c hosts
                   = match fresh with
                     | [] => Return (setEndPoints kept c)
                     | _ :: _ => Panic "makeslice: cap out of range"
                     end).
    { intros Hlim. rewrite Hrun, syncAdd_outOfRange by exact Hlim. reflexivity. }
    split.
    + intros Hlim. destruct (retryLimit_cases c) as [Hin|Hbad].
      * rewrite Hrun, syncAdd_exact by exact Hin. reflexivity.
      * destruct Hlim as [Hin|Hnone]; [lia|].
        rewrite Hout, Hnone by exact Hbad.
        cbn. rewrite app_nil_r, Nat.add_0_r. destruct c; reflexivity.
    + intros Hlim Hsome. rewrite Hout by exact Hlim.
      destruct fresh; [congruence|reflexivity].
  - intros pre w suf Hl Hout Hstop Hsuf. unfold SyncEndPoint.
    pose proof (syncRemove_stuck hosts pre w suf Hout Hstop Hsuf []) as H.
    rewrite app_nil_r, <- Hl in H. rewrite H. reflexivity.
Qed.

(** X4. When [SyncEndPoint] returns, the endpoints that have a worker are
    exactly the hosts it was given, and a second call with the same hosts
    returns the same dispatcher: no worker is replaced and none is
    allocated. *)
Theorem SyncEndPoint_set :
  forall (c c' : Callback) (hosts : list string),
    SyncEndPoint c hosts = Return c' ->
    (forall h : string, h ∈ points (endPoints c') <-> h ∈ hosts)
    /\ SyncEndPoint c' hosts = Return c'.
Proof.
  intros c c' hosts Hrun. split; [|exact (SyncEndPoint_idempotent c c' hosts Hrun)].
  intros h. rewrite (SyncEndPoint_shape c c' hosts Hrun).
  cbn [endPoints setEndPoints]. rewrite points_app, points_newWorkers, freshHosts_covers.
  split; [|tauto]. intros [Hin|Hin]; [|exact Hin].
  apply retained_points_in in Hin. tauto.
Qed.

(** X5. No operation on the membership makes two workers for one endpoint:
    the dispatcher [New] returns has none, and [AddEndpoint], [SyncEndPoint]
    and [DeleteEndpoint] keep it so. *)
Theorem endpoints_unique :
  (forall (opt : Options) (c : Callback),
      New opt = Return c -> NoDup (points (endPoints c)))
  /\ (forall (c c' : Callback) (host : string),
         NoDup (points (endPoints c)) ->
         AddEndpoint c host = Return c' -> NoDup (points (endPoints c')))
  /\ (forall (c c' : Callback) (hosts : list string),
         NoDup (points (endPoints c)) ->
         SyncEndPoint c hosts = Return c' -> NoDup (points (endPoints c')))
  /\ (forall (c c' : Callback) (host : string),
         NoDup (points (endPoints c)) ->
         DeleteEndpoint c host = Return c' -> NoDup (points (endPoints c'))).
Proof.
  assert (Hsync : forall (c c' : Callback) (hosts : list string),
             NoDup (points (endPoints c)) ->
             SyncEndPoint c hosts = Return c' -> NoDup (points (endPoints c'))).
  { intros c c' hosts Hnd Hrun. rewrite (SyncEndPoint_shape c c' hosts Hrun).
    cbn [endPoints setEndPoints]. rewrite points_app, points_newWorkers.
    apply freshHosts_NoDup, retained_NoDup, Hnd. }
  split; [|split; [|split; [exact Hsync|]]].
  - intros opt c Hrun. unfold New in Hrun.
    eapply Hsync; [|exact Hrun]. constructor.
  - intros c c' host Hnd Hrun.
    destruct (decide (host ∈ points (endPoints c))) as [Hin|Hout].
    + unfold AddEndpoint in Hrun.
      replace (findWorkerIndex c host =? -1) with false in Hrun.
      * injection Hrun as <-. exact Hnd.
      * symmetry. apply Z.eqb_neq. rewrite findWorkerIndex_absent_iff. tauto.
    + pose proof Hout as Hfind. apply findWorkerIndex_absent_iff in Hfind.
      unfold AddEndpoint, NewWorker in Hrun. rewrite Hfind in Hrun. cbn in Hrun.
      destruct (_ || _); [discriminate|]. injection Hrun as <-.
      cbn. rewrite points_app. apply NoDup_app. split; [exact Hnd|].
      split; [|apply NoDup_singleton].
      intros x Hx Hx'. apply list_elem_of_singleton in Hx'. subst. contradiction.
  - intros c c' host Hnd Hrun.
    destruct (first_worker host (endPoints c)) as [Hno|(pre & w & suf & Hl & Hw & Hpre)].
    + rewrite DeleteEndpoint_absent in Hrun by exact Hno. injection Hrun as <-. exact Hnd.
    + rewrite (DeleteEndpoint_present c host pre w suf Hl Hw Hpre) in Hrun.
      destruct (Close w); [|discriminate]. injection Hrun as <-.
      cbn. rewrite Hl in Hnd. rewrite points_app in *. unfold points in *.
      rewrite fmap_cons in Hnd. apply NoDup_app in Hnd as (Hp & Hdis & Hs).
      apply NoDup_cons in Hs as [_ Hs]. apply NoDup_app. split; [exact Hp|].
      split; [|exact Hs]. intros x Hx Hx'. apply (Hdis x Hx).
      apply elem_of_cons; right; exact Hx'.
Qed.

Lemma defaultOptions_RetryLimit (opt : Options) :
  RetryLimit (defaultOptions opt) = if RetryLimit opt =? 0 then 5 else RetryLimit opt.
Proof.
  destruct opt as [t dm rm eps lim tmo win].
  destruct t, dm, rm, lim, tmo, win; reflexivity.
Qed.

(** X6. [New] builds the dispatcher from the options with their defaults:
    cursor 0, empty channel, and, when the [RetryLimit] is a capacity [make]
    accepts, one worker for each endpoint of the options, duplicates dropped,
    in the order of the first occurrences, at the addresses 0, 1, ...  With a
    [RetryLimit] that is negative or above [maxSliceCap] it panics as soon as
    the options name an endpoint.  Without an endpoint it returns a
    dispatcher without workers, whatever the limit. *)
Theorem New_exact :
  forall opt : Options,
    let d := defaultOptions opt in
    let hosts := freshHosts [] (EndPoints opt) in
    (0 <= RetryLimit opt <= maxSliceCap ->
     New opt
     = Return (mkCallback (Transport d) (DeliveryMode d) (newWorkers 0 hosts)
                          (RetryLimit d) (RetryTimeout d) (RetryWindow d)
                          0 [] (length hosts)))
    /\ (RetryLimit opt < 0 \/ maxSliceCap < RetryLimit opt ->
        EndPoints opt <> [] ->
        New opt = Panic "makeslice: cap out of range")
    /\ (EndPoints opt = [] ->
        New opt
        = Return (mkCallback (Transport d) (DeliveryMode d) []
                             (RetryLimit d) (RetryTimeout d) (RetryWindow d) 0 [] 0)).
Proof.
  intros opt d hosts.
  assert (Hlim : RetryLimit d = if RetryLimit opt =? 0 then 5 else RetryLimit opt)
    by apply defaultOptions_RetryLimit.
  assert (Heps : EndPoints d = EndPoints opt) by apply defaultOptions_endPoints.
  assert (Hcap : 5 <= maxSliceCap) by (vm_compute; discriminate).
  unfold New, SyncEndPoint. fold d. cbn [endPoints length syncRemove go_bind].
  rewrite Heps. split; [|split].
  - intros Hpos. rewrite syncAdd_exact.
    + reflexivity.
    + cbn [retryLimit setEndPoints]. rewrite Hlim.
      destruct (Z.eqb_spec (RetryLimit opt) 0); lia.
  - intros Hneg Hne. rewrite syncAdd_outOfRange.
    + cbn [endPoints setEndPoints points fmap list_fmap].
      destruct (EndPoints opt) as [|h hs]; [congruence|]. reflexivity.
    + cbn [retryLimit setEndPoints]. rewrite Hlim.
      destruct (Z.eqb_spec (RetryLimit opt) 0); lia.
  - intros ->. reflexivity.
Qed.

(** ** Removing an endpoint *)

(** X7. [DeleteEndpoint] changes nothing when the endpoint has no worker.
    Otherwise it acts on the first worker of the endpoint only: with its stop
    channel open the worker leaves the list and the others keep their order;
    with a nil or a closed stop channel the call panics and the dispatcher,
    its list of workers included, is left as it was.  [DeleteEndpoint] is
    [DeleteEndpoint_run] without the dispatcher a panic leaves. *)
Theorem DeleteEndpoint_cases :
  forall (c : Callback) (host : string),
    DeleteEndpoint c host
    = match snd (DeleteEndpoint_run c host) with
      | Return _ => Return (fst (DeleteEndpoint_run c host))
      | Panic msg => Panic msg
      end
    /\ (host ∉ points (endPoints c) -> DeleteEndpoint_run c host = (c, Return tt))
    /\ (forall (pre : list Worker) (w : Worker) (suf : list Worker),
           endPoints c = pre ++ w :: suf ->
           point w = host ->
           host ∉ points pre ->
           DeleteEndpoint_run c host
           = match stop w with
             | ChanOpen => (setEndPoints (pre ++ suf) c, Return tt)
             | ChanNil => (c, Panic "close of nil channel")
             | ChanClosed => (c, Panic "close of closed channel")
             end).
Proof.
  intros c host.
  assert (Hno : forall l : list Worker,
             host ∉ points l -> Forall (fun x => point x <> host) l).
  { intros l Hout. apply Forall_forall. intros x Hx Hpt. apply Hout. unfold points.
    rewrite <- Hpt. apply list_elem_of_fmap_2. exact Hx. }
  split; [|split].
  - unfold DeleteEndpoint, DeleteEndpoint_run.
    destruct (findWorkerIndex c host =? -1); [reflexivity|].
    destruct (endPoints c !! Z.to_nat (findWorkerIndex c host)) as [worker|];
      [|reflexivity].
    destruct (Close worker); reflexivity.
  - intros Hout. unfold DeleteEndpoint_run, findWorkerIndex.
    rewrite findFrom_absent by (apply Hno; exact Hout). reflexivity.
  - intros pre w suf Hl Hw Hpre. unfold DeleteEndpoint_run, findWorkerIndex.
    rewrite Hl, findFrom_found by (try apply Hno; assumption).
    replace (0 + Z.of_nat (length pre) =? -1) with false
      by (symmetry; apply Z.eqb_neq; lia).
    replace (Z.to_nat (0 + Z.of_nat (length pre))) with (length pre) by lia.
    rewrite list_lookup_middle by reflexivity.
    unfold Close. destruct (stop w); try reflexivity.
    rewrite removeAt_middle. reflexivity.
Qed.

(** ** More on the failure window *)

Lemma filter_drops_all {A : Type} (p : A -> bool) (l : list A) :
  Forall (fun x => p x = false) l -> List.filter p l = [].
Proof.
  induction 1 as [|x l Hx _ IH]; cbn; [reflexivity|]. rewrite Hx. exact IH.
Qed.

(** X8. Failures each at least [retryWindow] after the one before never
    accumulate: for a [retryWindow] other than the least [int64] and a retry
    limit of at least 1, after any number of them the window holds the last
    failure only and [blockedUntil] is what it was. *)
Theorem failAll_spaced :
  forall (c : Callback) (ts : list Time) (w : Worker) (prev : Time),
    minInt64 < retryWindow c <= maxInt64 ->
    1 <= retryLimit c ->
    Forall (fun x => x <= prev) (errorTimestamps w) ->
    spaced (retryWindow c) prev ts ->
    blockedUntil (failAll c ts w) = blockedUntil w
    /\ (forall t : Time, last ts = Some t -> errorTimestamps (failAll c ts w) = [t]).
Proof.
  intros c ts. induction ts as [|t ts IH]; intros w prev Hrw Hlim Hold Hsp.
  - split; [reflexivity|]. intros t Ht; discriminate.
  - destruct Hsp as [Hgap Hsp]. rewrite failAll_cons.
    assert (Hwin : errorTimestamps (fst (Inc c t w)) = [t]).
    { rewrite Inc_errorTimestamps_exact by exact Hrw.
      rewrite filter_drops_all; [reflexivity|].
      eapply Forall_impl; [exact Hold|]. cbn. intros x Hx. apply Z.ltb_ge. lia. }
    assert (Hbu : blockedUntil (fst (Inc c t w)) = blockedUntil w).
    { rewrite Inc_blockedUntil, Hwin. cbn [length].
      replace (retryLimit c <? Z.of_nat 1) with false by (symmetry; apply Z.ltb_ge; lia).
      reflexivity. }
    destruct (IH (fst (Inc c t w)) t Hrw Hlim) as [Hb Hl]; [|exact Hsp|].
    + rewrite Hwin. constructor; [lia|constructor].
    + split; [rewrite Hb; exact Hbu|].
      intros t' Ht'. destruct ts as [|t2 ts]; [|apply Hl; exact Ht'].
      injection Ht' as <-. exact Hwin.
Qed.

(** X9. What [Inc] returns: false exactly when the failures in the window do
    not exceed the limit and the deadline is not after [now], and then the
    deadline is unchanged; when it returns true (the timeout not negative)
    the router finds the worker unavailable at [now]. *)
Theorem Inc_reports :
  forall (c : Callback) (now : Time) (w : Worker),
    (snd (Inc c now w) = false
     <-> Z.of_nat (length (errorTimestamps (fst (Inc c now w)))) <= retryLimit c
         /\ blockedUntil w <= now)
    /\ (snd (Inc c now w) = false ->
        blockedUntil (fst (Inc c now w)) = blockedUntil w)
    /\ (snd (Inc c now w) = true -> 0 <= retryTimeout c ->
        After now (blockedUntil (fst (Inc c now w))) = false).
Proof.
  intros c now w. rewrite Inc_returns, Inc_blockedUntil. unfold Before, After.
  destruct (Z.ltb_spec (retryLimit c)
                       (Z.of_nat (length (errorTimestamps (fst (Inc c now w))))))
    as [Hover|Hunder]; cbn [andb].
  - split; [split; [discriminate | lia]|]. split; [discriminate|].
    intros _ Htmo. destruct (Z.ltb_spec (blockedUntil w) now); apply Z.ltb_ge; lia.
  - split; [|split].
    + split.
      * intros H. apply Z.ltb_ge in H. lia.
      * intros [_ H]. apply Z.ltb_ge. lia.
    + reflexivity.
    + intros H _. apply Z.ltb_lt in H. apply Z.ltb_ge. lia.
Qed.

(** ** More on the worker's loop *)

Section WorkerLoopMore.

Variable Post : nat -> string -> bytes -> Outcome.
Variable clock : nat -> Time.
Variable pickStop : nat -> bool.
Variable c : Callback.

Lemma handlerRequest_point (k : nat) (w w' : Worker) (data : bytes) :
  point w = point w' ->
  handlerRequest Post c k w data = handlerRequest Post c k w' data.
Proof. intros H; unfold handlerRequest; rewrite H; reflexivity. Qed.

Lemma envelopesFrom_point (q : list bytes) :
  forall (k : nat) (w w' : Worker),
    point w = point w' ->
    envelopesFrom Post c w k q = envelopesFrom Post c w' k q.
Proof.
  induction q as [|data q IH]; intros k w w' H; cbn; [reflexivity|].
  rewrite (handlerRequest_point k w w' data H), H, (IH (S k) w w' H). reflexivity.
Qed.

(** One iteration on a message, the stop signal not given: the envelope of
    the outcome is sent, and the loop goes on with the worker the outcome
    leaves. *)
Lemma handler_message (fuel : nat) (s : Loop) (data : bytes) (rest : list bytes) :
  stop (self s) <> ChanClosed ->
  messageQueue (self s) = data :: rest ->
  handler Post clock pickStop c (S fuel) s
  = handler Post clock pickStop c fuel
      (mkLoop (afterOutcome clock c (iter s) (setQueue rest (self s))
                            (handlerRequest Post c (iter s) (self s) data))
              (sink s ++ [envelopeOf (point (self s))
                                     (handlerRequest Post c (iter s) (self s) data)])
              (S (iter s))
              (match handlerRequest Post c (iter s) (self s) data with
               | Crash _ => S (started s)
               | _ => started s
               end)).
Proof.
  intros Hstop Hq. rewrite handler_S, select_open, Hq by exact Hstop.
  rewrite (handlerRequest_point (iter s) (setQueue rest (self s)) (self s) data)
    by reflexivity.
  destruct (handlerRequest Post c (iter s) (self s) data) as [res|err|r];
    cbn [afterOutcome envelopeOf]; try reflexivity.
  destruct (Inc_frame c (clock (iter s)) (setQueue rest (self s))) as (_ & Hp & _).
  unfold sendReturn, failError. rewrite Hp. reflexivity.
Qed.

Lemma afterOutcome_frame (k : nat) (w : Worker) (o : Outcome) :
  point (afterOutcome clock c k w o) = point w
  /\ messageQueue (afterOutcome clock c k w o) = messageQueue w
  /\ stop (afterOutcome clock c k w o) = stop w.
Proof.
  destruct o; cbn [afterOutcome]; [repeat split| |repeat split].
  destruct (Inc_frame c (clock k) w) as (_ & Hp & Hq & Hs). auto.
Qed.

Lemma handler_fifo_sink (fuel : nat) :
  forall s : Loop,
    stop (self s) <> ChanClosed ->
    (length (messageQueue (self s)) < fuel)%nat ->
    sink (fst (handler Post clock pickStop c fuel s))
    = sink s ++ envelopesFrom Post c (self s) (iter s) (messageQueue (self s)).
Proof.
  induction fuel as [|fuel IH]; intros s Hstop Hlen; [lia|].
  destruct (messageQueue (self s)) as [|data rest] eqn:Hq.
  - rewrite handler_S, select_open, Hq by exact Hstop. cbn. rewrite app_nil_r. reflexivity.
  - rewrite (handler_message fuel s data rest Hstop Hq).
    set (o := handlerRequest Post c (iter s) (self s) data).
    destruct (afterOutcome_frame (iter s) (setQueue rest (self s)) o) as (Hp & Hqa & Hsa).
    rewrite IH; cbn [self sink iter].
    + rewrite Hqa. cbn [messageQueue setQueue envelopesFrom]. rewrite <- app_assoc.
      cbn [app]. fold o. do 2 f_equal. apply envelopesFrom_point. rewrite Hp. reflexivity.
    + rewrite Hsa. exact Hstop.
    + rewrite Hqa. cbn in *. lia.
Qed.

End WorkerLoopMore.

(** X10. A worker whose stop signal is not given handles its queue in order:
    it sends one envelope for each message, in the order of the queue, the
    envelope of what the request for that message did (answer, error or
    panic), then waits with an empty queue. *)
Theorem handler_fifo :
  forall (Post : nat -> string -> bytes -> Outcome) (clock : nat -> Time)
         (pickStop : nat -> bool) (c : Callback) (fuel : nat) (s : Loop),
    stop (self s) <> ChanClosed ->
    (length (messageQueue (self s)) < fuel)%nat ->
    sink (fst (handler Post clock pickStop c fuel s))
    = sink s ++ envelopesFrom Post c (self s) (iter s) (messageQueue (self s))
    /\ messageQueue (self (fst (handler Post clock pickStop c fuel s))) = []
    /\ snd (handler Post clock pickStop c fuel s) = Waiting.
Proof.
  intros Post clock pickStop c fuel s Hstop Hlen.
  destruct (handler_drains Post clock pickStop c fuel s Hstop Hlen) as (Hw & Hq & _).
  split; [apply handler_fifo_sink; assumption|]. split; assumption.
Qed.

(** X11. The loop returns only on a closed stop channel: with the nil channel
    [NewWorker] leaves, or an open one, it never stops, whatever the
    transport does, and it leaves the channel as it is. *)
Theorem handler_never_stops :
  forall (Post : nat -> string -> bytes -> Outcome) (clock : nat -> Time)
         (pickStop : nat -> bool) (c : Callback) (fuel : nat) (s : Loop),
    stop (self s) <> ChanClosed ->
    snd (handler Post clock pickStop c fuel s) <> Stopped
    /\ stop (self (fst (handler Post clock pickStop c fuel s))) = stop (self s).
Proof.
  intros Post clock pickStop c fuel. induction fuel as [|fuel IH]; intros s Hstop;
    [cbn; split; [discriminate|reflexivity]|].
  destruct (messageQueue (self s)) as [|data rest] eqn:Hq.
  - rewrite handler_S, select_open, Hq by exact Hstop. cbn. split; [discriminate|reflexivity].
  - rewrite (handler_message Post clock pickStop c fuel s data rest Hstop Hq).
    set (o := handlerRequest Post c (iter s) (self s) data).
    destruct (afterOutcome_frame clock c (iter s) (setQueue rest (self s)) o)
      as (_ & _ & Hsa).
    match goal with
    | |- context [handler _ _ _ _ fuel ?s'] => destruct (IH s') as [H1 H2]
    end.
    + cbn [self]. rewrite Hsa. exact Hstop.
    + split; [exact H1|]. rewrite H2. cbn [self]. rewrite Hsa. reflexivity.
Qed.

(** X12. A panic of the request is no failure for the breaker: while every
    request panics the loop records nothing, so the window and
    [blockedUntil] stay what they were and the worker is never blocked by
    it. *)
Theorem handler_panics_not_counted :
  forall (Post : nat -> string -> bytes -> Outcome) (clock : nat -> Time)
         (pickStop : nat -> bool) (c : Callback) (fuel : nat) (s : Loop),
    (forall (k : nat) (data : bytes),
        exists r, handlerRequest Post c k (self s) data = Crash r) ->
    errorTimestamps (self (fst (handler Post clock pickStop c fuel s)))
    = errorTimestamps (self s)
    /\ blockedUntil (self (fst (handler Post clock pickStop c fuel s)))
       = blockedUntil (self s).
Proof.
  intros Post clock pickStop c fuel.
  induction fuel as [|fuel IH]; intros s Hall; [split; reflexivity|].
  rewrite handler_S.
  destruct (select pickStop (iter s) (self s)) as [data w| |] eqn:Hsel;
    [|split; reflexivity|split; reflexivity].
  apply select_msg in Hsel as [-> _].
  destruct (Hall (iter s) data) as [r Hr].
  rewrite (handlerRequest_point Post c (iter s) _ (self s) data) by reflexivity.
  rewrite Hr.
  match goal with
  | |- context [handler _ _ _ _ fuel ?s'] => destruct (IH s') as [H1 H2]
  end.
  - intros k d. cbn [self].
    rewrite (handlerRequest_point Post c k _ (self s) d) by reflexivity. apply Hall.
  - rewrite H1, H2. split; reflexivity.
Qed.

(** X13. One success clears the breaker at the loop as well: when the request
    for the last queued message is answered, the worker ends with an empty
    window and the zero [blockedUntil], whatever the requests before it
    did. *)
Theorem handler_success_clears :
  forall (Post : nat -> string -> bytes -> Outcome) (clock : nat -> Time)
         (pickStop : nat -> bool) (c : Callback) (fuel : nat) (s : Loop)
         (q : list bytes) (data res : bytes),
    stop (self s) <> ChanClosed ->
    messageQueue (self s) = q ++ [data] ->
    (length q + 1 < fuel)%nat ->
    handlerRequest Post c (iter s + length q) (self s) data = Ok res ->
    errorTimestamps (self (fst (handler Post clock pickStop c fuel s))) = []
    /\ blockedUntil (self (fst (handler Post clock pickStop c fuel s))) = zeroTime.
Proof.
  intros Post clock pickStop c fuel s q. revert fuel s.
  induction q as [|x q IH]; intros fuel s data res Hstop Hq Hlen Hok.
  - destruct fuel as [|[|fuel]]; [cbn in Hlen; lia | cbn in Hlen; lia |].
    cbn [app length] in *. rewrite Nat.add_0_r in Hok.
    rewrite (handler_message Post clock pickStop c (S fuel) s data [] Hstop Hq), Hok.
    rewrite handler_S, select_open by exact Hstop. cbn. split; reflexivity.
  - destruct fuel as [|fuel]; [lia|]. cbn [app length] in *.
    rewrite (handler_message Post clock pickStop c fuel s x (q ++ [data]) Hstop Hq).
    set (o := handlerRequest Post c (iter s) (self s) x).
    destruct (afterOutcome_frame clock c (iter s) (setQueue (q ++ [data]) (self s)) o)
      as (Hp & Hqa & Hsa).
    match goal with
    | |- context [handler _ _ _ _ fuel ?s'] => apply (IH fuel s' data res)
    end; cbn [self iter].
    + rewrite Hsa. exact Hstop.
    + rewrite Hqa. reflexivity.
    + lia.
    + rewrite <- Hok. replace (S (iter s) + length q)%nat with (iter s + S (length q))%nat
        by lia.
      apply handlerRequest_point. rewrite Hp. reflexivity.
Qed.

(** X14. While every request fails, the loop records one failure for each
    message, at the clock reading of the iteration that handled it: the
    worker it leaves is the worker after those failures in a row. *)
Theorem handler_failures_recorded :
  forall (Post : nat -> string -> bytes -> Outcome) (clock : nat -> Time)
         (pickStop : nat -> bool) (c : Callback) (fuel : nat) (s : Loop),
    stop (self s) <> ChanClosed ->
    (length (messageQueue (self s)) < fuel)%nat ->
    (forall (k : nat) (data : bytes),
        exists err, handlerRequest Post c k (self s) data = Fail err) ->
    self (fst (handler Post clock pickStop c fuel s))
    = failAll c (clock <$> seq (iter s) (length (messageQueue (self s))))
              (setQueue [] (self s)).
Proof.
  intros Post clock pickStop c fuel.
  induction fuel as [|fuel IH]; intros s Hstop Hlen Hall; [lia|].
  destruct (messageQueue (self s)) as [|data rest] eqn:Hq.
  - rewrite handler_S, select_open, Hq by exact Hstop. cbn.
    rewrite <- Hq. destruct (self s); reflexivity.
  - rewrite (handler_message Post clock pickStop c fuel s data rest Hstop Hq).
    destruct (Hall (iter s) data) as [err Herr]. rewrite Herr. cbn [afterOutcome].
    destruct (Inc_frame c (clock (iter s)) (setQueue rest (self s))) as (_ & Hp & Hqi & Hsi).
    rewrite IH; cbn [self iter].
    + rewrite Hqi. cbn [messageQueue setQueue length seq fmap list_fmap].
      rewrite failAll_cons. f_equal.
      unfold Inc, setQueue, setErrorTimestamps, setBlockedUntil; cbn.
      destruct (_ >? _); [destruct (After _ _)|]; reflexivity.
    + rewrite Hsi. exact Hstop.
    + rewrite Hqi. cbn in *. lia.
    + intros k d. rewrite (handlerRequest_point Post c k _ (self s) d); [apply Hall|].
      rewrite Hp. reflexivity.
Qed.

(** ** What a selection touches *)



(** ** Who gets which payload *)

Lemma slot_hits (v : Z) (len p j : nat) :
  (p < len)%nat -> (j < len)%nat ->
  slotOf (v + Z.of_nat j) len = p
  <-> j = Z.to_nat ((Z.of_nat p - v) mod Z.of_nat len).
Proof.
  intros Hp Hj. unfold slotOf.
  pose proof (Z.mod_pos_bound (v + Z.of_nat j) (Z.of_nat len) ltac:(lia)) as Hb1.
  pose proof (Z.mod_pos_bound (Z.of_nat p - v) (Z.of_nat len) ltac:(lia)) as Hb2.
  split.
  - intros H.
    assert (E : (v + Z.of_nat j) mod Z.of_nat len = Z.of_nat p) by lia.
    rewrite <- E, Zminus_mod_idemp_l.
    replace (v + Z.of_nat j - v) with (Z.of_nat j) by lia.
    rewrite Z.mod_small by lia. lia.
  - intros ->. rewrite Z2Nat.id by lia.
    rewrite Z.add_mod_idemp_r by lia.
    replace (v + (Z.of_nat p - v)) with (Z.of_nat p) by lia.
    rewrite Z.mod_small by lia. lia.
Qed.

Lemma picks_none (len p : nat) (datas : list bytes) :
  forall v : Z,
    (forall j : nat, (j < length datas)%nat -> slotOf (v + Z.of_nat j) len <> p) ->
    picks v len p datas = [].
Proof.
  induction datas as [|data datas IH]; intros v Hno; cbn [picks]; [reflexivity|].
  destruct (decide (slotOf v len = p)) as [Hit|_].
  - exfalso. apply (Hno 0%nat); [cbn; lia|]. rewrite Z.add_0_r. exact Hit.
  - cbn [app]. apply IH. intros j Hj.
    replace (v + 1 + Z.of_nat j) with (v + Z.of_nat (S j)) by lia.
    apply Hno. cbn; lia.
Qed.

Lemma picks_one (len p : nat) (datas : list bytes) :
  forall (v : Z) (j0 : nat),
    (j0 < length datas)%nat ->
    (forall j : nat, (j < length datas)%nat ->
                     slotOf (v + Z.of_nat j) len = p <-> j = j0) ->
    exists data : bytes, datas !! j0 = Some data /\ picks v len p datas = [data].
Proof.
  induction datas as [|data datas IH]; intros v j0 Hj0 Hiff; [cbn in Hj0; lia|].
  cbn [picks]. destruct j0 as [|j0].
  - exists data. split; [reflexivity|].
    destruct (decide (slotOf v len = p)) as [_|Hmiss].
    + rewrite picks_none; [reflexivity|]. intros j Hj Hit.
      replace (v + 1 + Z.of_nat j) with (v + Z.of_nat (S j)) in Hit by lia.
      apply Hiff in Hit; [discriminate|cbn; lia].
    + exfalso. apply Hmiss. rewrite <- (Z.add_0_r v). apply (Hiff 0%nat); [cbn; lia|].
      reflexivity.
  - destruct (decide (slotOf v len = p)) as [Hit|_].
    + rewrite <- (Z.add_0_r v) in Hit. apply (Hiff 0%nat) in Hit; [discriminate|cbn; lia].
    + cbn [app]. destruct (IH (v + 1) j0) as (d & Hd & Hp); [cbn in Hj0; lia| |].
      * intros j Hj.
        replace (v + 1 + Z.of_nat j) with (v + Z.of_nat (S j)) by lia.
        rewrite (Hiff (S j)) by (cbn; lia). split; [intros [= ->]; reflexivity|].
        intros ->; reflexivity.
      * exists d. split; [exact Hd | exact Hp].
Qed.

Lemma setQueue_enqueue (data : bytes) (w : Worker) (more : list bytes) :
  setQueue (messageQueue (enqueue data w) ++ more) (enqueue data w)
  = setQueue (messageQueue w ++ data :: more) w.
Proof. unfold enqueue, setQueue; cbn. rewrite <- app_assoc. reflexivity. Qed.

(** The queues after a run of emits, every endpoint available. *)
Lemma emitAll_queues :
  forall (nows : nat -> nat -> Time) (datas : list bytes) (k : nat) (c : Callback),
    deliveryMode c = RoundRobin ->
    endPoints c <> [] ->
    0 <= roundRobinIndex c ->
    roundRobinIndex c + Z.of_nat (length datas) <= maxInt32 ->
    alwaysAvailable nows (endPoints c) ->
    forall (p : nat) (w : Worker),
      endPoints c !! p = Some w ->
      endPoints (fst (emitAll nows k c datas)) !! p
      = Some (setQueue (messageQueue w
                        ++ picks (roundRobinIndex c) (length (endPoints c)) p datas) w).
Proof.
  intros nows datas. induction datas as [|data datas IH];
    intros k c Hmode Hne Hv Hmax Hall p w Hp.
  - cbn. rewrite app_nil_r, Hp. destruct w; reflexivity.
  - cbn [length] in Hmax. cbn [emitAll picks].
    destruct (Emit_available (nows k) c data Hmode Hne ltac:(lia)) as (w0 & Hw0 & ->).
    { eapply Forall_impl; [exact Hall|]. cbn; auto. }
    set (slot := slotOf (roundRobinIndex c) (length (endPoints c))) in *.
    set (c1 := setEndPoints _ _).
    assert (Hlen1 : length (endPoints c1) = length (endPoints c))
      by (subst c1; cbn; apply length_insert).
    assert (Hidx1 : roundRobinIndex c1 = roundRobinIndex c + 1) by reflexivity.
    assert (Hne1 : endPoints c1 <> []).
    { intros E. apply (f_equal length) in E. rewrite Hlen1 in E.
      destruct (endPoints c); [congruence|discriminate]. }
    assert (Hall1 : alwaysAvailable nows (endPoints c1)).
    { subst c1; cbn. apply Forall_insert; [exact Hall|].
      intros k' i'. cbn. exact (Forall_lookup_1 _ _ _ _ Hall Hw0 k' i'). }
    assert (Hslot : (slot < length (endPoints c))%nat)
      by (eapply lookup_lt_Some; exact Hw0).
    destruct (decide (slot = p)) as [<-|Hdiff].
    + assert (w0 = w) by congruence. subst w0.
      rewrite (IH (S k) c1 Hmode Hne1 ltac:(lia) ltac:(lia) Hall1 slot (enqueue data w)).
      * rewrite Hlen1, Hidx1. f_equal. apply setQueue_enqueue.
      * subst c1; cbn. apply list_lookup_insert_eq. exact Hslot.
    + rewrite (IH (S k) c1 Hmode Hne1 ltac:(lia) ltac:(lia) Hall1 p w).
      * rewrite Hlen1, Hidx1. reflexivity.
      * subst c1; cbn. rewrite list_lookup_insert_ne by exact Hdiff. exact Hp.
Qed.

(** X16. With every endpoint available, payloads emitted one after the other
    are dealt out by position: the worker at position [p] gets, behind what
    it had queued and in the order of emission, exactly the payloads whose
    turn comes at a cursor value that selects [p]; nothing else of the worker
    changes. *)
Theorem emitAll_deals :
  forall (nows : nat -> nat -> Time) (datas : list bytes) (c : Callback),
    deliveryMode c = RoundRobin ->
    endPoints c <> [] ->
    0 <= roundRobinIndex c ->
    roundRobinIndex c + Z.of_nat (length datas) <= maxInt32 ->
    alwaysAvailable nows (endPoints c) ->
    snd (emitAll nows 0 c datas) = Return None
    /\ roundRobinIndex (fst (emitAll nows 0 c datas))
       = roundRobinIndex c + Z.of_nat (length datas)
    /\ forall (p : nat) (w : Worker),
        endPoints c !! p = Some w ->
        endPoints (fst (emitAll nows 0 c datas)) !! p
        = Some (setQueue (messageQueue w
                          ++ picks (roundRobinIndex c) (length (endPoints c)) p datas) w).
Proof.
  intros nows datas c Hmode Hne Hv Hmax Hall.
  destruct (emitAll_available nows datas 0 c Hmode Hne Hv Hmax Hall)
    as (Hres & _ & Hidx & _).
  split; [exact Hres|]. split; [exact Hidx|].
  intros p w Hp. apply emitAll_queues; assumption.
Qed.

(** X17. Round-robin is fair: with every endpoint available, as many emits
    as there are endpoints put exactly one payload behind the queue of each
    endpoint, for the endpoint at position [p] the payload emitted at turn
    [(p - cursor) mod N]; nothing else of the worker changes. *)
Theorem roundRobin_fair :
  forall (nows : nat -> nat -> Time) (datas : list bytes) (c : Callback),
    deliveryMode c = RoundRobin ->
    endPoints c <> [] ->
    0 <= roundRobinIndex c ->
    roundRobinIndex c + Z.of_nat (length (endPoints c)) <= maxInt32 ->
    alwaysAvailable nows (endPoints c) ->
    length datas = length (endPoints c) ->
    forall (p : nat) (w : Worker),
      endPoints c !! p = Some w ->
      exists data : bytes,
        datas !! Z.to_nat ((Z.of_nat p - roundRobinIndex c)
                             mod Z.of_nat (length (endPoints c))) = Some data
        /\ endPoints (fst (emitAll nows 0 c datas)) !! p
           = Some (setQueue (messageQueue w ++ [data]) w).
Proof.
  intros nows datas c Hmode Hne Hv Hmax Hall Hlen p w Hp.
  assert (Hplt : (p < length (endPoints c))%nat) by (eapply lookup_lt_Some; exact Hp).
  pose proof (Z.mod_pos_bound (Z.of_nat p - roundRobinIndex c)
                (Z.of_nat (length (endPoints c))) ltac:(lia)) as Hb.
  destruct (picks_one (length (endPoints c)) p datas (roundRobinIndex c)
              (Z.to_nat ((Z.of_nat p - roundRobinIndex c)
                           mod Z.of_nat (length (endPoints c)))))
    as (data & Hd & Hpick).
  - rewrite Hlen. lia.
  - intros j Hj. apply slot_hits; [exact Hplt | rewrite <- Hlen; exact Hj].
  - exists data. split; [exact Hd|].
    rewrite (emitAll_queues nows datas 0 c Hmode Hne Hv
               ltac:(rewrite Hlen; exact Hmax) Hall p w Hp), Hpick.
    reflexivity.
Qed.

(** ** The consumer of the shared channel *)

(** X18. The loop of the dispatcher takes every envelope from the channel.
    With no function installed the envelopes are dropped: nothing keeps them
    for a function installed later.  With a function that returns from every
    call, it is called once with each envelope, in the order of the
    channel. *)
Theorem Callback_handler_delivers :
  (forall channel calls : list Data.t,
      Callback_handler None channel calls = Return calls)
  /\ (forall (f : UserFn) (channel calls : list Data.t),
         Forall (fun data => f data = None) channel ->
         Callback_handler (Some f) channel calls = Return (calls ++ channel)).
Proof.
  split.
  - intros channel. induction channel as [|data channel IH]; intros calls; cbn; auto.
  - intros f channel. induction channel as [|data channel IH]; intros calls Hall; cbn.
    + rewrite app_nil_r. reflexivity.
    + inversion Hall as [|? ? Hd Hrest]; subst. rewrite Hd, IH by exact Hrest.
      rewrite <- app_assoc. reflexivity.
Qed.

(** X19. A panic of the user's function on an envelope costs no later
    envelope, as long as the function returns from the call with the
    [globalPanic] envelope that follows: the loop is started again and the
    function is still called once with each envelope of the channel, in
    order, and once more after each call that panicked. *)
Theorem Callback_handler_recovers :
  forall (f : UserFn) (channel calls : list Data.t),
    Forall (fun data => forall r, f data = Some r -> f (globalPanic r) = None) channel ->
    Callback_handler (Some f) channel calls = Return (calls ++ callsFor f channel).
Proof.
  intros f channel. induction channel as [|data channel IH]; intros calls Hall.
  - cbn. rewrite app_nil_r. reflexivity.
  - inversion Hall as [|? ? Hd Hrest]; subst. cbn [Callback_handler callsFor flat_map].
    destruct (f data) as [r|] eqn:Hf.
    + rewrite (Hd r eq_refl), IH by exact Hrest.
      unfold callsFor. rewrite <- app_assoc. reflexivity.
    + rewrite IH by exact Hrest. unfold callsFor. rewrite <- app_assoc. reflexivity.
Qed.

(** X20. When the user's function panics on an envelope and again on the
    [globalPanic] envelope, the second panic is not recovered: the loop ends
    with it, no new loop is started, and the envelopes behind are never
    handed over. *)
Theorem Callback_handler_dies :
  forall (f : UserFn) (pre : list Data.t) (data : Data.t) (rest calls : list Data.t)
         (r r' : string),
    Forall (fun x => f x = None) pre ->
    f data = Some r ->
    f (globalPanic r) = Some r' ->
    Callback_handler (Some f) (pre ++ data :: rest) calls = Panic r'.
Proof.
  intros f pre. induction pre as [|x pre IH]; intros data rest calls r r' Hpre Hd Hp.
  - cbn. rewrite Hd, Hp. reflexivity.
  - inversion Hpre as [|? ? Hx Hrest]; subst. cbn. rewrite Hx.
    apply (IH data rest _ r r' Hrest Hd Hp).
Qed.

(** ** Requests over HTTP *)

(** X21. With the REST transport, the loop counts every answer whose status is
    not 200 as a failure of the endpoint, the other 2xx statuses included: it
    records the failure in the window and sends the error envelope of
    ["received non-200 response code"].  An answer with status 200 and a
    readable body resets the window and is sent as the response. *)
Theorem handler_over_http :
  forall (net : nat -> transport.Client) (clock : nat -> Time) (pickStop : nat -> bool)
         (c : Callback) (fuel : nat) (s : Loop) (data : bytes) (rest : list bytes)
         (resp : transport.HttpResponse),
    transport c = REST ->
    stop (self s) <> ChanClosed ->
    messageQueue (self s) = data :: rest ->
    transport.NewRequest (net (iter s)) (point (self s)) = None ->
    transport.Do (net (iter s)) (point (self s)) data = transport.Success resp ->
    let Post := fun k => transport.Post (net k) in
    (transport.StatusCode resp <> 200 ->
     handler Post clock pickStop c (S fuel) s
     = handler Post clock pickStop c fuel
         (mkLoop (fst (Inc c (clock (iter s)) (setQueue rest (self s))))
                 (sink s
                  ++ [Data.mk (point (self s)) false None
                              (Some (Error.mk 0 "[ERROR] received non-200 response code"
                                              true))])
                 (S (iter s)) (started s)))
    /\ (forall body : bytes,
           transport.StatusCode resp = 200 ->
           transport.Body resp = transport.Success body ->
           handler Post clock pickStop c (S fuel) s
           = handler Post clock pickStop c fuel
               (mkLoop (Reset (setQueue rest (self s)))
                       (sink s
                        ++ [Data.mk (point (self s)) true (Some (Response.mk body)) None])
                       (S (iter s)) (started s))).
Proof.
  intros net clock pickStop c fuel s data rest resp Hrest Hstop Hq Hreq Hdo Post.
  assert (Hpost : handlerRequest Post c (iter s) (self s) data
                  = if negb (transport.StatusCode resp =? 200)
                    then Fail "received non-200 response code"
                    else match transport.Body resp with
                         | transport.Failure err => Fail err
                         | transport.Success responseBody => Ok responseBody
                         end).
  { unfold handlerRequest. rewrite Hrest. cbn [String.eqb]. unfold REST.
    rewrite String.eqb_refl. subst Post. cbn beta. unfold transport.Post.
    rewrite Hreq, Hdo. reflexivity. }
  split.
  - intros Hcode. rewrite (handler_message Post clock pickStop c fuel s data rest Hstop Hq).
    rewrite Hpost. apply Z.eqb_neq in Hcode. rewrite Hcode. reflexivity.
  - intros body Hcode Hbody.
    rewrite (handler_message Post clock pickStop c fuel s data rest Hstop Hq).
    rewrite Hpost, Hcode, Hbody. reflexivity.
Qed.

(** ** The helper of the tests *)

Lemma slicesEqualFrom_spec (a b : list string) (fuel : nat) :
  forall i : nat,
    (i + fuel)%nat = length a ->
    length a = length b ->
    slicesEqualFrom fuel i a b = Return (bool_decide (drop i a = drop i b)).
Proof.
  induction fuel as [|fuel IH]; intros i Hi Hlen; cbn [slicesEqualFrom].
  - rewrite !drop_ge by lia. rewrite bool_decide_eq_true_2; reflexivity.
  - destruct (lookup_lt_is_Some_2 a i ltac:(lia)) as [x Hx].
    destruct (lookup_lt_is_Some_2 b i ltac:(lia)) as [y Hy].
    rewrite Hx, Hy, (drop_S a x i Hx), (drop_S b y i Hy).
    destruct (String.eqb_spec x y) as [->|Hne]; cbn [negb].
    + rewrite IH by lia. f_equal. apply bool_decide_ext.
      split; [intros ->; reflexivity | intros [= ->]; reflexivity].
    + f_equal. symmetry. apply bool_decide_eq_false_2. intros [= E _]. contradiction.
Qed.

(** X22. [slicesEqual] never indexes out of range and returns true exactly
    when the two slices hold the same strings in the same order. *)
Theorem slicesEqual_decides :
  forall a b : list string, slicesEqual a b = Return (bool_decide (a = b)).
Proof.
  intros a b. unfold slicesEqual.
  destruct (Nat.eqb_spec (length a) (length b)) as [Hlen|Hlen]; cbn [negb].
  - rewrite slicesEqualFrom_spec by (try exact Hlen; lia). reflexivity.
  - f_equal. symmetry. apply bool_decide_eq_false_2. intros ->. contradiction.
Qed.

(** ** From [Emit] to the envelope *)

Lemma envelopesFrom_snoc (Post : nat -> string -> bytes -> Outcome) (c : Callback)
      (w : Worker) (q : list bytes) :
  forall (k : nat) (data : bytes),
    envelopesFrom Post c w k (q ++ [data])
    = envelopesFrom Post c w k q
      ++ [envelopeOf (point w) (handlerRequest Post c (k + length q) w data)].
Proof.
  induction q as [|x q IH]; intros k data; cbn.
  - rewrite Nat.add_0_r. reflexivity.
  - rewrite IH. replace (S k + length q)%nat with (k + S (length q))%nat by lia.
    reflexivity.
Qed.

(** With the worker at the index the cursor gives available, [Emit] puts the
    payload behind its queue and moves the cursor by one, whatever the other
    workers are. *)
Lemma Emit_under_cursor (now : nat -> Time) (c : Callback) (data : bytes) (w : Worker) :
  deliveryMode c = RoundRobin ->
  0 <= candidateIndex (roundRobinIndex c) (length (endPoints c)) ->
  endPoints c !! Z.to_nat (candidateIndex (roundRobinIndex c) (length (endPoints c)))
  = Some w ->
  After (now 0%nat) (blockedUntil w) = true ->
  Emit now c data
  = (setEndPoints
       (<[Z.to_nat (candidateIndex (roundRobinIndex c) (length (endPoints c)))
          := setQueue (messageQueue w ++ [data]) w]> (endPoints c))
       (setRoundRobinIndex (atomicAdd (roundRobinIndex c) 1) c),
     Return None).
Proof.
  intros Hmode Hidx Hw Hav.
  rewrite Emit_roundRobin by exact Hmode. unfold roundRobin.
  assert (Hlen : length (endPoints c) = S (pred (length (endPoints c)))).
  { apply lookup_lt_Some in Hw. lia. }
  rewrite Hlen at 1. cbn [roundRobinFrom].
  replace (_ <? 0) with false by (symmetry; apply Z.ltb_ge; exact Hidx).
  change (endPoints (setRoundRobinIndex (atomicAdd (roundRobinIndex c) 1) c))
    with (endPoints c).
  rewrite Hw, Hav. reflexivity.
Qed.

(** X23. A payload that [Emit] hands to the worker at the index the cursor
    gives, that worker available, is answered by one envelope of that worker,
    sent behind the envelopes of the messages that were queued before it: the
    payload goes behind the queue of the worker, and the loop of the worker,
    its stop signal not given, sends the envelopes of the old queue in order
    and then the envelope of what the request for the payload did.  The
    other workers may be blocked. *)
Theorem Emit_then_handler :
  forall (now : nat -> Time) (Post : nat -> string -> bytes -> Outcome)
         (clock : nat -> Time) (pickStop : nat -> bool) (c : Callback) (data : bytes)
         (fuel k n : nat) (w : Worker),
    let index := candidateIndex (roundRobinIndex c) (length (endPoints c)) in
    let w' := setQueue (messageQueue w ++ [data]) w in
    deliveryMode c = RoundRobin ->
    0 <= index ->
    endPoints c !! Z.to_nat index = Some w ->
    After (now 0%nat) (blockedUntil w) = true ->
    snd (Emit now c data) = Return None
    /\ endPoints (fst (Emit now c data)) = <[Z.to_nat index := w']> (endPoints c)
    /\ endPoints (fst (Emit now c data)) !! Z.to_nat index = Some w'
    /\ (stop w <> ChanClosed ->
        (length (messageQueue w) + 1 < fuel)%nat ->
        sink (fst (handler Post clock pickStop c fuel (mkLoop w' (returnChannel c) k n)))
        = returnChannel c
          ++ envelopesFrom Post c w k (messageQueue w)
          ++ [envelopeOf (point w)
                         (handlerRequest Post c (k + length (messageQueue w)) w data)]).
Proof.
  intros now Post clock pickStop c data fuel k n w index w' Hmode Hidx Hw Hav.
  rewrite (Emit_under_cursor now c data w Hmode Hidx Hw Hav).
  cbn [fst snd endPoints setEndPoints]. fold index. fold w'.
  split; [reflexivity|]. split; [reflexivity|].
  split; [apply list_lookup_insert_eq; eapply lookup_lt_Some; exact Hw|].
  intros Hstop Hlen.
  rewrite handler_fifo_sink; cbn [self sink iter].
  - rewrite (envelopesFrom_point Post c _ k w' w) by reflexivity.
    change (messageQueue w') with (messageQueue w ++ [data]).
    rewrite envelopesFrom_snoc. reflexivity.
  - exact Hstop.
  - change (messageQueue w') with (messageQueue w ++ [data]).
    rewrite length_app. cbn. lia.
Qed.

(** ** Envelopes and nil pointers *)

(** X24. [sendReturn] builds a well-formed envelope of its worker exactly
    when its argument is not a nil [*Response] or a nil [*Error]: a nil
    [*Response] gives [Success] with no response, a nil [*Error] a failure
    with no error.  Anything else, the nil interface included, gives a
    well-formed failure. *)
Theorem sendReturn_wellFormed_iff :
  forall (w : Worker) (result : iface),
    wellFormed (point w) (sendReturn w result)
    <-> result <> IResponse None /\ result <> IError None.
Proof.
  intros w result. split.
  - intros [_ [(Hs & Hr & He)|(Hs & He & Hr)]];
      destruct result as [[r|]|[e|]|]; cbn in *;
      split; first [discriminate | congruence].
  - intros [Hr He]. apply sendReturn_wellFormed; assumption.
Qed.

(** ** Defaults of the options, again *)

(** X25. [defaultOptions] applied twice is [defaultOptions] applied once, and
    its result has no zero-valued field but, possibly, the endpoint list. *)
Theorem defaultOptions_idempotent :
  forall opt : Options,
    defaultOptions (defaultOptions opt) = defaultOptions opt
    /\ Transport (defaultOptions opt) <> ""
    /\ DeliveryMode (defaultOptions opt) <> ""
    /\ RetryMode (defaultOptions opt) <> ""
    /\ RetryLimit (defaultOptions opt) <> 0
    /\ RetryTimeout (defaultOptions opt) <> 0
    /\ RetryWindow (defaultOptions opt) <> 0.
Proof.
  intros [t dm rm eps lim tmo win].
  destruct t, dm, rm, lim, tmo, win; repeat split; discriminate.
Qed.

(** ** The loop of a closed worker *)

(** X26. Once the stop channel is closed the loop ends: within one iteration
    more than there are queued messages it has returned, having sent one
    envelope for each message it still took and left the others in the
    queue; it never waits for a message again. *)
Theorem handler_stops_when_closed :
  forall (Post : nat -> string -> bytes -> Outcome) (clock : nat -> Time)
         (pickStop : nat -> bool) (c : Callback) (fuel : nat) (s : Loop),
    stop (self s) = ChanClosed ->
    (length (messageQueue (self s)) < fuel)%nat ->
    snd (handler Post clock pickStop c fuel s) = Stopped
    /\ (length (sink (fst (handler Post clock pickStop c fuel s)))
        + length (messageQueue (self (fst (handler Post clock pickStop c fuel s))))
        = length (sink s) + length (messageQueue (self s)))%nat.
Proof.
  intros Post clock pickStop c fuel.
  induction fuel as [|fuel IH]; intros s Hstop Hlen; [lia|].
  rewrite handler_S. unfold select. rewrite Hstop.
  destruct (messageQueue (self s)) as [|data rest] eqn:Hq.
  - cbn. rewrite Hq. split; reflexivity.
  - destruct (pickStop (iter s)); [cbn; rewrite Hq; split; reflexivity|].
    cbn [length] in Hlen.
    destruct (Inc_frame c (clock (iter s)) (setQueue rest (self s))) as (_ & _ & Hqi & Hsi).
    destruct (handlerRequest Post c (iter s) (setQueue rest (self s)) data) as [res|err|r];
      match goal with
      | |- context [handler _ _ _ _ fuel ?s'] =>
          destruct (IH s') as [H1 H2];
          [ cbn [self]; first [rewrite Hsi; exact Hstop | exact Hstop]
          | cbn [self]; first [rewrite Hqi; cbn; lia | cbn; lia]
          | split; [exact H1|]; rewrite H2; cbn [self sink];
            rewrite length_app; try rewrite Hqi; cbn; lia ]
      end.
Qed.

(** ** Instances of the further properties *)

(** A worker with an open stop channel is removed, one with the nil channel
    is kept, and a host named twice gets one worker. *)
Lemma SyncEndPoint_exact_witness :
  let c := mkCallback REST RoundRobin
                      [mkWorker 0 "a" [] [] zeroTime ChanOpen;
                       mkWorker 1 "b" [] [] zeroTime ChanNil]
                      5 (Second * 5) (Second * 3) 0 [] 2 in
  let hosts := ["b"; "c"; "c"] in
  (Forall (fun w => point w ∉ hostSet hosts -> stop w = ChanOpen) (endPoints c)
   /\ 0 <= retryLimit c <= maxSliceCap)
  /\ SyncEndPoint c hosts
     = Return (setEndPoints
                 (retained hosts (endPoints c)
                  ++ newWorkers (nextAddr c)
                                (freshHosts (points (retained hosts (endPoints c))) hosts))
                 (setNextAddr
                    (nextAddr c
                     + length (freshHosts (points (retained hosts (endPoints c))) hosts))
                    c)).
Proof.
  intros c hosts.
  assert (H1 : Forall (fun w => point w ∉ hostSet hosts -> stop w = ChanOpen) (endPoints c)).
  { constructor; [intros _; reflexivity|]. constructor; [|constructor].
    intros Hout. exfalso. apply Hout. apply elem_of_list_to_set. constructor. }
  assert (H2 : 0 <= retryLimit c <= maxSliceCap) by zcmp.
  split; [split; assumption|].
  exact (proj1 (proj1 (SyncEndPoint_exact c hosts) H1) (or_introl H2)).
Defined.

(** A fourth endpoint joins the dispatcher [three]. *)
Lemma SyncEndPoint_set_witness :
  let hosts := ["a"; "b"; "c"; "d"] in
  let c' := mkCallback REST RoundRobin
                       [mkWorker 0 "a" [] [] zeroTime ChanNil;
                        mkWorker 1 "b" [] [] zeroTime ChanNil;
                        mkWorker 2 "c" [] [] zeroTime ChanNil;
                        mkWorker 3 "d" [] [] zeroTime ChanNil]
                       5 (Second * 5) (Second * 3) 0 [] 4 in
  SyncEndPoint three hosts = Return c'
  /\ ((forall h : string, h ∈ points (endPoints c') <-> h ∈ hosts)
      /\ SyncEndPoint c' hosts = Return c').
Proof.
  intros hosts c'.
  assert (H1 : SyncEndPoint three hosts = Return c') by (vm_compute; reflexivity).
  split; [exact H1|].
  exact (SyncEndPoint_set three c' hosts H1).
Defined.

(** Four failures one second apart with a window of one second and a limit
    of 2: the worker is not blocked. *)
Lemma failAll_spaced_witness :
  let w := mkWorker 0 "a" [] [] zeroTime ChanNil in
  let ts := [Second; 2 * Second; 3 * Second; 4 * Second] in
  (minInt64 < retryWindow strict <= maxInt64
   /\ 1 <= retryLimit strict
   /\ Forall (fun x => x <= 0) (errorTimestamps w)
   /\ spaced (retryWindow strict) 0 ts)
  /\ (blockedUntil (failAll strict ts w) = blockedUntil w
      /\ (forall t : Time, last ts = Some t -> errorTimestamps (failAll strict ts w) = [t])).
Proof.
  intros w ts.
  assert (H0 : minInt64 < retryWindow strict <= maxInt64) by zcmp.
  assert (H1 : 1 <= retryLimit strict) by zcmp.
  assert (H2 : Forall (fun x => x <= 0) (errorTimestamps w)) by constructor.
  assert (H3 : spaced (retryWindow strict) 0 ts) by (cbn; repeat split; zcmp).
  split; [split; [exact H0 | split; [exact H1 | split; [exact H2 | exact H3]]]|].
  exact (failAll_spaced strict ts w 0 H0 H1 H2 H3).
Defined.

(** A transport that answers the first request, fails the second and panics
    on the third: three messages, three envelopes in that order. *)
Lemma handler_fifo_witness :
  let Post := fun (k : nat) (_ : string) (_ : bytes) =>
                match k with
                | O => Ok [x41%byte]
                | S O => Fail "down"
                | S (S _) => Crash "boom"
                end in
  let clock := fun _ : nat => 1 in
  let pickStop := fun _ : nat => false in
  let s := mkLoop (mkWorker 0 "a" [[x31%byte]; [x32%byte]; [x33%byte]] [] zeroTime ChanNil)
                  [] 0 1 in
  (stop (self s) <> ChanClosed
   /\ (length (messageQueue (self s)) < 4)%nat)
  /\ (sink (fst (handler Post clock pickStop three 4 s))
      = sink s ++ envelopesFrom Post three (self s) (iter s) (messageQueue (self s))
      /\ messageQueue (self (fst (handler Post clock pickStop three 4 s))) = []
      /\ snd (handler Post clock pickStop three 4 s) = Waiting).
Proof.
  intros Post clock pickStop s.
  assert (H1 : stop (self s) <> ChanClosed) by discriminate.
  assert (H2 : (length (messageQueue (self s)) < 4)%nat) by (cbn; lia).
  split; [split; assumption|].
  exact (handler_fifo Post clock pickStop three 4 s H1 H2).
Defined.

(** The loop of a worker [NewWorker] made does not stop. *)
Lemma handler_never_stops_witness :
  let Post := fun (_ : nat) (_ : string) (_ : bytes) => Fail "down" in
  let clock := fun _ : nat => 1 in
  let pickStop := fun _ : nat => true in
  let s := mkLoop (mkWorker 0 "a" [[x31%byte]] [] zeroTime ChanNil) [] 0 1 in
  stop (self s) <> ChanClosed
  /\ (snd (handler Post clock pickStop three 5 s) <> Stopped
      /\ stop (self (fst (handler Post clock pickStop three 5 s))) = stop (self s)).
Proof.
  intros Post clock pickStop s.
  assert (H1 : stop (self s) <> ChanClosed) by discriminate.
  split; [exact H1|].
  exact (handler_never_stops Post clock pickStop three 5 s H1).
Defined.

(** A transport that panics on every request, with the limit of [strict]:
    three messages leave the window empty. *)
Lemma handler_panics_not_counted_witness :
  let Post := fun (_ : nat) (_ : string) (_ : bytes) => Crash "boom" in
  let clock := fun _ : nat => 1 in
  let pickStop := fun _ : nat => false in
  let s := mkLoop (mkWorker 0 "a" [[x31%byte]; [x32%byte]; [x33%byte]] [] zeroTime ChanNil)
                  [] 0 1 in
  (forall (k : nat) (data : bytes),
      exists r, handlerRequest Post strict k (self s) data = Crash r)
  /\ (errorTimestamps (self (fst (handler Post clock pickStop strict 4 s)))
      = errorTimestamps (self s)
      /\ blockedUntil (self (fst (handler Post clock pickStop strict 4 s)))
         = blockedUntil (self s)).
Proof.
  intros Post clock pickStop s.
  assert (H1 : forall (k : nat) (data : bytes),
             exists r, handlerRequest Post strict k (self s) data = Crash r)
    by (intros k data; exists "boom"; reflexivity).
  split; [exact H1|].
  exact (handler_panics_not_counted Post clock pickStop strict 4 s H1).
Defined.

(** A failure, then a success: the worker, blocked before, ends cleared. *)
Lemma handler_success_clears_witness :
  let Post := fun (k : nat) (_ : string) (_ : bytes) =>
                match k with O => Fail "down" | S _ => Ok [] end in
  let clock := fun _ : nat => 1 in
  let pickStop := fun _ : nat => false in
  let first : bytes := [x31%byte] in
  let second : bytes := [x32%byte] in
  let s := mkLoop (mkWorker 0 "a" [first; second] [0; 1] 50 ChanNil) [] 0 1 in
  (stop (self s) <> ChanClosed
   /\ messageQueue (self s) = [first] ++ [second]
   /\ (length [first] + 1 < 3)%nat
   /\ handlerRequest Post strict (iter s + length [first]) (self s) second = Ok [])
  /\ (errorTimestamps (self (fst (handler Post clock pickStop strict 3 s))) = []
      /\ blockedUntil (self (fst (handler Post clock pickStop strict 3 s))) = zeroTime).
Proof.
  intros Post clock pickStop first second s.
  assert (H1 : stop (self s) <> ChanClosed) by discriminate.
  assert (H2 : messageQueue (self s) = [first] ++ [second]) by reflexivity.
  assert (H3 : (length [first] + 1 < 3)%nat) by (cbn; lia).
  assert (H4 : handlerRequest Post strict (iter s + length [first]) (self s) second = Ok [])
    by reflexivity.
  split; [repeat split; assumption|].
  exact (handler_success_clears Post clock pickStop strict 3 s [first] second [] H1 H2 H3 H4).
Defined.

(** A transport that fails every request: two messages are two failures, at
    the clock readings of the two iterations. *)
Lemma handler_failures_recorded_witness :
  let Post := fun (_ : nat) (_ : string) (_ : bytes) => Fail "down" in
  let clock := fun k : nat => Z.of_nat k + 10 in
  let pickStop := fun _ : nat => false in
  let s := mkLoop (mkWorker 0 "a" [[x31%byte]; [x32%byte]] [] zeroTime ChanNil) [] 0 1 in
  (stop (self s) <> ChanClosed
   /\ (length (messageQueue (self s)) < 3)%nat
   /\ (forall (k : nat) (data : bytes),
          exists err, handlerRequest Post strict k (self s) data = Fail err))
  /\ self (fst (handler Post clock pickStop strict 3 s))
     = failAll strict (clock <$> seq (iter s) (length (messageQueue (self s))))
               (setQueue [] (self s)).
Proof.
  intros Post clock pickStop s.
  assert (H1 : stop (self s) <> ChanClosed) by discriminate.
  assert (H2 : (length (messageQueue (self s)) < 3)%nat) by (cbn; lia).
  assert (H3 : forall (k : nat) (data : bytes),
             exists err, handlerRequest Post strict k (self s) data = Fail err)
    by (intros k data; exists "down"; reflexivity).
  split; [repeat split; assumption|].
  exact (handler_failures_recorded Post clock pickStop strict 3 s H1 H2 H3).
Defined.

(** Four payloads over the three endpoints of [three]. *)
Lemma emitAll_deals_witness :
  let nows := fun _ _ : nat => 1 in
  let datas : list bytes := [[x31%byte]; [x32%byte]; [x33%byte]; [x34%byte]] in
  (deliveryMode three = RoundRobin
   /\ endPoints three <> []
   /\ 0 <= roundRobinIndex three
   /\ roundRobinIndex three + Z.of_nat (length datas) <= maxInt32
   /\ alwaysAvailable nows (endPoints three))
  /\ (snd (emitAll nows 0 three datas) = Return None
      /\ roundRobinIndex (fst (emitAll nows 0 three datas))
         = roundRobinIndex three + Z.of_nat (length datas)
      /\ forall (p : nat) (w : Worker),
          endPoints three !! p = Some w ->
          endPoints (fst (emitAll nows 0 three datas)) !! p
          = Some (setQueue (messageQueue w
                            ++ picks (roundRobinIndex three) (length (endPoints three))
                                     p datas) w)).
Proof.
  intros nows datas.
  assert (H1 : deliveryMode three = RoundRobin) by reflexivity.
  assert (H2 : endPoints three <> []) by discriminate.
  assert (H3 : 0 <= roundRobinIndex three) by zcmp.
  assert (H4 : roundRobinIndex three + Z.of_nat (length datas) <= maxInt32) by zcmp.
  assert (H5 : alwaysAvailable nows (endPoints three)) by (repeat constructor).
  split; [repeat split; assumption|].
  exact (emitAll_deals nows datas three H1 H2 H3 H4 H5).
Defined.

(** Three payloads over the three endpoints of [three]: one each. *)
Lemma roundRobin_fair_witness :
  let nows := fun _ _ : nat => 1 in
  let datas : list bytes := [[x31%byte]; [x32%byte]; [x33%byte]] in
  (deliveryMode three = RoundRobin
   /\ endPoints three <> []
   /\ 0 <= roundRobinIndex three
   /\ roundRobinIndex three + Z.of_nat (length (endPoints three)) <= maxInt32
   /\ alwaysAvailable nows (endPoints three)
   /\ length datas = length (endPoints three))
  /\ (forall (p : nat) (w : Worker),
         endPoints three !! p = Some w ->
         exists data : bytes,
           datas !! Z.to_nat ((Z.of_nat p - roundRobinIndex three)
                                mod Z.of_nat (length (endPoints three))) = Some data
           /\ endPoints (fst (emitAll nows 0 three datas)) !! p
              = Some (setQueue (messageQueue w ++ [data]) w)).
Proof.
  intros nows datas.
  assert (H1 : deliveryMode three = RoundRobin) by reflexivity.
  assert (H2 : endPoints three <> []) by discriminate.
  assert (H3 : 0 <= roundRobinIndex three) by zcmp.
  assert (H4 : roundRobinIndex three + Z.of_nat (length (endPoints three)) <= maxInt32)
    by zcmp.
  assert (H5 : alwaysAvailable nows (endPoints three)) by (repeat constructor).
  assert (H6 : length datas = length (endPoints three)) by reflexivity.
  split; [repeat split; assumption|].
  exact (roundRobin_fair nows datas three H1 H2 H3 H4 H5 H6).
Defined.

(** A function that panics on the failures of an endpoint and takes the
    [globalPanic] envelope: both envelopes of the channel reach it. *)
Lemma Callback_handler_recovers_witness :
  let f : UserFn :=
    fun data => if Data.Success data then None
                else if String.eqb (Data.Point data) "" then None else Some "oops" in
  let channel := [Data.mk "a" false None (Some (Error.mk 0 "[ERROR] down" true));
                  Data.mk "a" true (Some (Response.mk [])) None] in
  Forall (fun data => forall r, f data = Some r -> f (globalPanic r) = None) channel
  /\ Callback_handler (Some f) channel [] = Return ([] ++ callsFor f channel).
Proof.
  intros f channel.
  assert (H1 : Forall (fun data => forall r, f data = Some r -> f (globalPanic r) = None)
                      channel)
    by (repeat constructor).
  split; [exact H1|].
  exact (Callback_handler_recovers f channel [] H1).
Defined.

(** The function of examples/default reads [data.Response.Data]: it panics
    on every envelope without a response, the [globalPanic] one included, so
    the first failure of an endpoint ends the loop. *)
Lemma Callback_handler_dies_witness :
  let f : UserFn :=
    fun data => match Data.Response data with
                | Some _ => None
                | None => Some "nil pointer dereference"
                end in
  let answered := Data.mk "a" true (Some (Response.mk [])) None in
  let failed := Data.mk "b" false None (Some (Error.mk 0 "[ERROR] down" true)) in
  (Forall (fun x => f x = None) [answered]
   /\ f failed = Some "nil pointer dereference"
   /\ f (globalPanic "nil pointer dereference") = Some "nil pointer dereference")
  /\ Callback_handler (Some f) ([answered] ++ failed :: [answered]) []
     = Panic "nil pointer dereference".
Proof.
  intros f answered failed.
  assert (H1 : Forall (fun x => f x = None) [answered]) by (repeat constructor).
  assert (H2 : f failed = Some "nil pointer dereference") by reflexivity.
  assert (H3 : f (globalPanic "nil pointer dereference") = Some "nil pointer dereference")
    by reflexivity.
  split; [repeat split; assumption|].
  exact (Callback_handler_dies f [answered] failed [answered] []
           "nil pointer dereference" "nil pointer dereference" H1 H2 H3).
Defined.

(** An endpoint that answers 201 Created. *)
Lemma handler_over_http_witness :
  let resp := transport.mkHttpResponse 201 (transport.Success []) in
  let net := fun _ : nat =>
               transport.mkClient (fun _ => None) (fun _ _ => transport.Success resp) in
  let clock := fun _ : nat => 1 in
  let pickStop := fun _ : nat => false in
  let data : bytes := [x31%byte] in
  let s := mkLoop (mkWorker 0 "a" [data] [] zeroTime ChanNil) [] 0 1 in
  let Post := fun k => transport.Post (net k) in
  (transport three = REST
   /\ stop (self s) <> ChanClosed
   /\ messageQueue (self s) = data :: []
   /\ transport.NewRequest (net (iter s)) (point (self s)) = None
   /\ transport.Do (net (iter s)) (point (self s)) data = transport.Success resp)
  /\ ((transport.StatusCode resp <> 200 ->
       handler Post clock pickStop three 2 s
       = handler Post clock pickStop three 1
           (mkLoop (fst (Inc three (clock (iter s)) (setQueue [] (self s))))
                   (sink s
                    ++ [Data.mk (point (self s)) false None
                                (Some (Error.mk 0 "[ERROR] received non-200 response code"
                                                true))])
                   (S (iter s)) (started s)))
      /\ (forall body : bytes,
             transport.StatusCode resp = 200 ->
             transport.Body resp = transport.Success body ->
             handler Post clock pickStop three 2 s
             = handler Post clock pickStop three 1
                 (mkLoop (Reset (setQueue [] (self s)))
                         (sink s
                          ++ [Data.mk (point (self s)) true (Some (Response.mk body)) None])
                         (S (iter s)) (started s)))).
Proof.
  intros resp net clock pickStop data s Post.
  assert (H1 : transport three = REST) by reflexivity.
  assert (H2 : stop (self s) <> ChanClosed) by discriminate.
  assert (H3 : messageQueue (self s) = data :: []) by reflexivity.
  assert (H4 : transport.NewRequest (net (iter s)) (point (self s)) = None) by reflexivity.
  assert (H5 : transport.Do (net (iter s)) (point (self s)) data = transport.Success resp)
    by reflexivity.
  split; [repeat split; assumption|].
  exact (handler_over_http net clock pickStop three 1 s data [] resp H1 H2 H3 H4 H5).
Defined.

(** One payload emitted on two endpoints, the first with a message queued
    and available, the second blocked; then the loop of the first. *)
Lemma Emit_then_handler_witness :
  let now := fun _ : nat => 1 in
  let Post := fun (_ : nat) (_ : string) (_ : bytes) => Ok [] in
  let clock := fun _ : nat => 1 in
  let pickStop := fun _ : nat => false in
  let data : bytes := [x31%byte] in
  let w := mkWorker 0 "a" [[x30%byte]] [] zeroTime ChanNil in
  let c := mkCallback REST RoundRobin
                      [w; mkWorker 1 "b" [] [] (5 * Second) ChanNil]
                      5 (Second * 5) (Second * 3) 0 [] 2 in
  let index := candidateIndex (roundRobinIndex c) (length (endPoints c)) in
  let w' := setQueue (messageQueue w ++ [data]) w in
  (deliveryMode c = RoundRobin
   /\ 0 <= index
   /\ endPoints c !! Z.to_nat index = Some w
   /\ After (now 0%nat) (blockedUntil w) = true)
  /\ (snd (Emit now c data) = Return None
      /\ endPoints (fst (Emit now c data)) = <[Z.to_nat index := w']> (endPoints c)
      /\ endPoints (fst (Emit now c data)) !! Z.to_nat index = Some w'
      /\ (stop w <> ChanClosed ->
          (length (messageQueue w) + 1 < 3)%nat ->
          sink (fst (handler Post clock pickStop c 3 (mkLoop w' (returnChannel c) 0 1)))
          = returnChannel c
            ++ envelopesFrom Post c w 0 (messageQueue w)
            ++ [envelopeOf (point w)
                           (handlerRequest Post c (0 + length (messageQueue w)) w data)])).
Proof.
  intros now Post clock pickStop data w c index w'.
  assert (H1 : deliveryMode c = RoundRobin) by reflexivity.
  assert (H2 : 0 <= index) by zcmp.
  assert (H3 : endPoints c !! Z.to_nat index = Some w) by reflexivity.
  assert (H4 : After (now 0%nat) (blockedUntil w) = true) by reflexivity.
  split; [repeat split; assumption|].
  exact (Emit_then_handler now Post clock pickStop c data 3 0 1 w H1 H2 H3 H4).
Defined.

(** A closed worker with two queued messages, the stop case taken at the
    second [select]. *)
Lemma handler_stops_when_closed_witness :
  let Post := fun (_ : nat) (_ : string) (_ : bytes) => Ok [] in
  let clock := fun _ : nat => 1 in
  let pickStop := fun k : nat => match k with O => false | S _ => true end in
  let s := mkLoop (mkWorker 0 "a" [[x31%byte]; [x32%byte]] [] zeroTime ChanClosed) [] 0 1 in
  (stop (self s) = ChanClosed
   /\ (length (messageQueue (self s)) < 3)%nat)
  /\ (snd (handler Post clock pickStop three 3 s) = Stopped
      /\ (length (sink (fst (handler Post clock pickStop three 3 s)))
          + length (messageQueue (self (fst (handler Post clock pickStop three 3 s))))
          = length (sink s) + length (messageQueue (self s)))%nat).
Proof.
  intros Post clock pickStop s.
  assert (H1 : stop (self s) = ChanClosed) by reflexivity.
  assert (H2 : (length (messageQueue (self s)) < 3)%nat) by (cbn; lia).
  split; [split; assumption|].
  exact (handler_stops_when_closed Post clock pickStop three 3 s H1 H2).
Defined.
